(** * fpylll: integer matrices ([src/fpylll/integer_matrix.pyx])

    A shallow embedding of the [IntegerMatrix] class of fpylll, the Cython
    wrapper around fplll's [ZZ_mat<mpz_t>], and the properties of its
    indexing, copy, product, modular reduction, sub-matrix and randomisation
    methods.

    Conventions of the embedding.
    - An [mpz_t] entry is a [Z]; GMP's functions are given by their
      documented meaning.
    - A [ZZ_mat<mpz_t>] is a record of its two dimensions and its rows.
    - A Python exception is an [exn]; a method returns an [outcome].  A
      method that mutates [self] also returns the core it leaves behind, so
      that the state after an exception can be spoken about.
    - A [cdef int] is a [Z]; where a Python object is converted to one, the
      conversion raises [OverflowError] outside the 32-bit range, and where
      a counter is incremented in C, the increment wraps around.
    - Objects live in a store of cores indexed by locations; an
      [IntegerMatrix] object holds the location of its core. *)

From stdpp Require Import base numbers option list gmap strings.

(** ** Exceptions and outcomes *)

Inductive exn : Set :=
  | ValueError
  | IndexError
  | TypeError
  | KeyError
  | OverflowError
  | NotImplementedError.

(** Faults that no Python handler sees: the process is terminated. *)
Inductive fatal : Set :=
  | SIGFPE    (* GMP's intentional division by zero *)
  | SIGSEGV.  (* a core pointer that was never set *)

Inductive outcome (A : Type) : Type :=
  | Ok (a : A)
  | Raise (e : exn)
  | Abort (f : fatal).
Arguments Ok {A} a.
Arguments Raise {A} e.
Arguments Abort {A} f.

Global Instance outcome_ret : MRet outcome := λ A a, Ok a.
Global Instance outcome_bind : MBind outcome := λ A B f m,
  match m with
  | Ok a => f a
  | Raise e => Raise e
  | Abort s => Abort s
  end.

(** The outcome is an exception, reported to the caller. *)
Definition is_Raise {A} (o : outcome A) : Prop := ∃ e, o = Raise e.

(** A [for] loop over [xs] whose body may raise: the state reached so far
    is kept when it does. *)
Fixpoint for_each {X S : Type} (body : X → S → outcome unit * S)
    (xs : list X) (s : S) : outcome unit * S :=
  match xs with
  | [] => (Ok tt, s)
  | x :: xs =>
      match body x s with
      | (Ok _, s') => for_each body xs s'
      | (r, s') => (r, s')
      end
  end.

(** ** C integers *)

Module CInt.
Definition INT_MAX : Z := 2147483647.
Definition INT_MIN : Z := -2147483648.

Definition in_range (z : Z) : bool :=
  (INT_MIN <=? z)%Z && (z <=? INT_MAX)%Z.

(** Conversion of a Python integer to a C [int]. *)
Definition of_py (z : Z) : outcome Z :=
  if in_range z then Ok z else Raise OverflowError.

(** Two's complement wrap-around of C arithmetic on [int]. *)
Definition wrap (z : Z) : Z :=
  ((z - INT_MIN) `mod` 4294967296 + INT_MIN)%Z.

(** [x += 1] on a [cdef int]. *)
Definition incr (z : Z) : Z := wrap (z + 1).
End CInt.

(** ** GMP *)

Module Gmp.
(** [mpz_fdiv_q_ui(q, n, d)]: floor division by an unsigned long. *)
Definition mpz_fdiv_q_ui (n : Z) (d : Z) : Z := (n `div` d)%Z.

(** [mpz_mod(r, n, d)]: the sign of the divisor is ignored and the result
    is non-negative; a zero divisor is an intentional division by zero. *)
Definition mpz_mod (n d : Z) : option Z :=
  if (d =? 0)%Z then None else Some (n `mod` Z.abs d)%Z.

(** [mpz_cmp(a, b)]: positive, zero or negative. *)
Definition mpz_cmp (a b : Z) : Z :=
  match (a ?= b)%Z with Lt => (-1)%Z | Eq => 0%Z | Gt => 1%Z end.

Definition mpz_sub (a b : Z) : Z := (a - b)%Z.
End Gmp.

(** ** The core: fplll's [ZZ_mat<mpz_t>] *)

Record ZZ_mat : Type := mkZZ_mat {
  getRows : nat;
  getCols : nat;
  matrix : list (list Z)
}.

Global Instance ZZ_mat_inhabited : Inhabited ZZ_mat :=
  populate (mkZZ_mat 0 0 []).

(** [new ZZ_mat<mpz_t>(r, c)]: every cell is zero. *)
Definition new_ZZ_mat (r c : nat) : ZZ_mat :=
  mkZZ_mat r c (replicate r (replicate c 0%Z)).

(** [M[0][i][j]] read; fplll checks no bounds, the callers do. *)
Definition cell (M : ZZ_mat) (i j : nat) : Z :=
  default 0%Z (matrix M !! i ≫= (.!! j)).

(** [M[0][i][j] = v], or [M[0][i][j].set(v)]. *)
Definition set_cell (M : ZZ_mat) (i j : nat) (v : Z) : ZZ_mat :=
  mkZZ_mat (getRows M) (getCols M) (alter (<[j := v]>) i (matrix M)).

(** The representation invariant of a core. *)
Definition wf (M : ZZ_mat) : Prop :=
  length (matrix M) = getRows M
  ∧ Forall (λ row, length row = getCols M) (matrix M)
  ∧ (Z.of_nat (getRows M) ≤ CInt.INT_MAX)%Z
  ∧ (Z.of_nat (getCols M) ≤ CInt.INT_MAX)%Z.

(** The properties [nrows] and [ncols], as Python integers. *)
Definition nrows (M : ZZ_mat) : Z := Z.of_nat (getRows M).
Definition ncols (M : ZZ_mat) : Z := Z.of_nat (getCols M).

(** ** Helpers of [fpylll.util] and [fpylll.io] *)

(** One pass of negative-index normalisation: [dim + index]. *)
Definition normalize (i m : Z) : Z := if (i <? 0)%Z then (m + i)%Z else i.

Definition in_bounds (i m : Z) : bool := (0 <=? i)%Z && (i <? m)%Z.

(** Modelled from the spec: [preprocess_indices] of [fpylll.util] is not in
    the sources.  Each index is normalised once ([dim + index] when it is
    negative) and must then lie in [0, dim); an index that does not is
    reported as an error.  The indices are passed by reference: the caller
    goes on with the normalised pair. *)
Definition preprocess_indices (i j m n : Z) : outcome (Z * Z) :=
  let i := normalize i m in
  let j := normalize j n in
  if negb (in_bounds i m) then Raise IndexError
  else if negb (in_bounds j n) then Raise IndexError
  else Ok (i, j).

(** Python values handed to the methods as entries and moduli. *)
Inductive pyobj : Type :=
  | PyInt (z : Z)
  | PyNone
  | PyStr (s : string).

(** Modelled from the spec: [assign_mpz] of [fpylll.io] is not in the
    sources.  It takes any Python integer, of arbitrary precision, and
    refuses every other value; [mod] expects [NotImplementedError] from it. *)
Definition assign_mpz (value : pyobj) : outcome Z :=
  match value with
  | PyInt z => Ok z
  | _ => Raise NotImplementedError
  end.

(** Modelled from the spec: [assign_Z_NR_mpz] of [fpylll.io] is not in the
    sources.  It converts as [assign_mpz] does and stores into the cell. *)
Definition assign_Z_NR_mpz (M : ZZ_mat) (i j : nat) (value : pyobj)
    : outcome unit * ZZ_mat :=
  match assign_mpz value with
  | Ok z => (Ok tt, set_cell M i j z)
  | Raise e => (Raise e, M)
  | Abort s => (Abort s, M)
  end.

(** Modelled from the spec: [mpz_get_python] of [fpylll.io] is not in the
    sources.  It returns the entry as a Python integer. *)
Definition mpz_get_python (z : Z) : pyobj := PyInt z.

(** Sequencing of a step that may raise with a computation on a state. *)
Definition lift {S A : Type} (o : outcome A) (k : A → S → outcome unit * S)
    (s : S) : outcome unit * S :=
  match o with
  | Ok a => k a s
  | Raise e => (Raise e, s)
  | Abort f => (Abort f, s)
  end.

(** ** [IntegerMatrix]: the methods, on the cores they work on *)

(** [IntegerMatrix(arg0, arg1)] for two integers: the first branch of
    [__init__]. *)
Definition IntegerMatrix_of_shape (arg0 arg1 : Z) : outcome ZZ_mat :=
  if (arg0 <? 0)%Z then Raise ValueError
  else if (arg1 <? 0)%Z then Raise ValueError
  else
    r ← CInt.of_py arg0;
    c ← CInt.of_py arg1;
    Ok (new_ZZ_mat (Z.to_nat r) (Z.to_nat c)).

(** The two loops of [__copy__]: [A[i][j] = self[i][j]]. *)
Definition copy_cells (self A : ZZ_mat) : ZZ_mat :=
  foldl (λ A i,
    foldl (λ A j, set_cell A i j (cell self i j)) A (seq 0 (getCols self)))
    A (seq 0 (getRows self)).

Definition __copy__ (self : ZZ_mat) : outcome ZZ_mat :=
  A ← IntegerMatrix_of_shape (nrows self) (ncols self);
  Ok (copy_cells self A).

(** [tmp.addmul(a, b)]: [tmp += a * b], exactly. *)
Definition addmul (tmp a b : Z) : Z := (tmp + a * b)%Z.

(** The inner loop of [__mul__] over [k]. *)
Definition mul_entry (A B : ZZ_mat) (i j : nat) (tmp : Z) : Z :=
  foldl (λ tmp k, addmul tmp (cell A i k) (cell B k j)) tmp
    (seq 0 (getCols A)).

(** The loops of [__mul__] over [i] and [j], filling [res]. *)
Definition mul_cells (A B res : ZZ_mat) : ZZ_mat :=
  foldl (λ res i,
    foldl (λ res j, set_cell res i j (mul_entry A B i j (cell res i j)))
      res (seq 0 (getCols B)))
    res (seq 0 (getRows A)).

Definition __mul__ (A B : ZZ_mat) : outcome ZZ_mat :=
  if decide (ncols A ≠ nrows B) then Raise ValueError
  else
    res ← IntegerMatrix_of_shape (nrows A) (ncols B);
    Ok (mul_cells A B res).

(** The body of the two loops of [mod] at cell [(i, j)]; the bounds of the
    range are the normalised ones.  The column test reads the row index
    [i], as the source does. *)
Definition mod_cell (q_ q2_ start_row start_col stop_row stop_col : Z)
    (i j : nat) (self : ZZ_mat) : outcome unit * ZZ_mat :=
  let t1 := cell self i j in
  if (start_row <=? Z.of_nat i)%Z && (Z.of_nat i <? stop_row)%Z
     && (start_col <=? Z.of_nat i)%Z && (Z.of_nat i <? stop_col)%Z
  then
    match Gmp.mpz_mod t1 q_ with
    | None => (Abort SIGFPE, self)
    | Some t2 =>
        let t2 :=
          if (Gmp.mpz_cmp t2 q2_ >? 0)%Z then Gmp.mpz_sub t2 q_ else t2 in
        (Ok tt, set_cell self i j t2)
    end
  else (Ok tt, self).

(** [self.mod(q, start_row, start_col, stop_row, stop_col)]; the defaults
    of the four range arguments are [0], [0], [-1] and [-1].  The name has
    an underscore because [mod] is a notation of the arithmetic scopes. *)
Definition mod_ (q : pyobj) (start_row start_col stop_row stop_col : Z)
    (self : ZZ_mat) : outcome unit * ZZ_mat :=
  lift (preprocess_indices start_row start_col (nrows self) (ncols self))
    (λ '(start_row, start_col),
  lift (preprocess_indices stop_row stop_col (nrows self + 1) (ncols self + 1))
    (λ '(stop_row, stop_col),
  lift (assign_mpz q)
    (λ q_,
      let q2_ := Gmp.mpz_fdiv_q_ui q_ 2 in
      for_each (λ i,
        for_each
          (mod_cell q_ q2_ start_row start_col stop_row stop_col i)
          (seq 0 (getCols self)))
        (seq 0 (getRows self))))) self.

(** [self.mod(q)]. *)
Definition mod_default (q : pyobj) (self : ZZ_mat) : outcome unit * ZZ_mat :=
  mod_ q 0 0 (-1) (-1) self.

(** [self % q]. *)
Definition __mod__ (self : ZZ_mat) (q : pyobj) : outcome ZZ_mat :=
  A ← __copy__ self;
  match mod_default q A with
  | (Ok _, A) => Ok A
  | (Raise e, _) => Raise e
  | (Abort f, _) => Abort f
  end.

(** The inner loop of [__richcmp__]: it stops at the first difference. *)
Fixpoint richcmp_row (self other : ZZ_mat) (i : nat) (js : list nat)
    (eq : bool) : bool :=
  match js with
  | [] => eq
  | j :: js =>
      if negb (cell self i j =? cell other i j)%Z then false
      else richcmp_row self other i js eq
  end.

(** The outer loop: it stops as soon as [eq] is [False]. *)
Fixpoint richcmp_rows (self other : ZZ_mat) (rows : list nat) (eq : bool)
    : bool :=
  match rows with
  | [] => eq
  | i :: rows =>
      if negb eq then eq
      else
        richcmp_rows self other rows
          (richcmp_row self other i (seq 0 (getCols self)) eq)
  end.

(** [__richcmp__(self, other, op)]: [op] is 2 for [==] and 3 for [!=]. *)
Definition __richcmp__ (self other : ZZ_mat) (op : Z) : outcome bool :=
  if bool_decide (op = 2%Z) || bool_decide (op = 3%Z) then
    let eq := true in
    let eq :=
      if negb (nrows self =? nrows other)%Z then false
      else if negb (ncols self =? ncols other)%Z then false
      else eq in
    let eq := richcmp_rows self other (seq 0 (getRows self)) eq in
    if bool_decide (op = 2%Z) then Ok eq else Ok (negb eq)
  else Raise NotImplementedError.

(** An argument of [submatrix] given for [a] or [b]: an iterable of
    integers that can be traversed again (a list, a range), or something
    [iter] refuses. *)
Inductive pyiter : Type :=
  | Iterable (xs : list Z)
  | NotIterable.

(** [while True: next(it); m += 1], on a [cdef int] counter. *)
Definition count_items (xs : list Z) : Z :=
  foldl (λ m _, CInt.incr m) 0%Z xs.

(** The body of the inner loop of [submatrix]; the state is [row], which
    [preprocess_indices] normalises in place, the counter [j] and the new
    matrix [A]. *)
Definition submatrix_cell (self : ZZ_mat) (i : Z) (col : Z)
    (st : Z * Z * ZZ_mat) : outcome unit * (Z * Z * ZZ_mat) :=
  let '(row, j, A) := st in
  lift (CInt.of_py col) (λ col,
  lift (preprocess_indices row col (nrows self) (ncols self))
    (λ '(row, col) _,
      (Ok tt,
       (row, CInt.incr j,
        set_cell A (Z.to_nat i) (Z.to_nat j)
          (cell self (Z.to_nat row) (Z.to_nat col)))))) st.

(** The body of the outer loop; the state is the counter [i] and [A]. *)
Definition submatrix_row (self : ZZ_mat) (cols : list Z) (row : Z)
    (st : Z * ZZ_mat) : outcome unit * (Z * ZZ_mat) :=
  let '(i, A) := st in
  lift (CInt.of_py row) (λ row _,
    match for_each (submatrix_cell self i) cols (row, 0%Z, A) with
    | (Ok _, (_, _, A)) => (Ok tt, (CInt.incr i, A))
    | (r, (_, _, A)) => (r, (i, A))
    end) st.

(** [self.submatrix(a, b)], that is with [c] and [d] left to [None]: the
    calling convention with explicit rows and columns. *)
Definition submatrix (self : ZZ_mat) (a b : pyiter) : outcome ZZ_mat :=
  match a, b with
  | Iterable rows, Iterable cols =>
      let m := count_items rows in
      let n := count_items cols in
      A ← IntegerMatrix_of_shape m n;
      match for_each (submatrix_row self cols) rows (0%Z, A) with
      | (Ok _, (_, A)) => Ok A
      | (Raise e, _) => Raise e
      | (Abort f, _) => Abort f
      end
  | _, _ => Raise ValueError
  end.

(** A key of [A[key]]: a pair of integers, a slice without step, an
    integer, or anything else. *)
Inductive key : Type :=
  | KeyTuple (i j : Z)
  | KeySlice (start stop : option Z)
  | KeyIndex (i : Z)
  | KeyOther.

(** What [A[key]] evaluates to: an entry, a new matrix, or a reference to
    a row of [A]. *)
Inductive item : Type :=
  | ItemEntry (r : pyobj)
  | ItemMatrix (A : ZZ_mat)
  | ItemRow (row : Z).

(** Python's [slice(start, stop).indices(len)], for a slice without step. *)
Definition slice_indices (start stop : option Z) (len : Z) : Z * Z :=
  let clamp x := if (x <? 0)%Z then Z.max (x + len) 0 else Z.min x len in
  (from_option clamp 0%Z start, from_option clamp len stop).

(** [IntegerMatrixRow(M, row)]: the row index the reference keeps. *)
Definition IntegerMatrixRow_init (M : ZZ_mat) (row : Z) : outcome Z :=
  '(row, _) ← preprocess_indices row row (nrows M) (nrows M);
  Ok row.

Definition __getitem__ (self : ZZ_mat) (k : key) : outcome item :=
  match k with
  | KeyTuple i j =>
      i ← CInt.of_py i;
      j ← CInt.of_py j;
      '(i, j) ← preprocess_indices i j (nrows self) (ncols self);
      let r := mpz_get_python (cell self (Z.to_nat i) (Z.to_nat j)) in
      Ok (ItemEntry r)
  | KeySlice start stop =>
      let '(lo, hi) := slice_indices start stop (nrows self) in
      A ← submatrix self (Iterable (seqZ lo (hi - lo)))
            (Iterable (seqZ 0 (ncols self)));
      Ok (ItemMatrix A)
  | KeyIndex i =>
      i ← CInt.of_py i;
      '(i, _) ← preprocess_indices i i (nrows self) (nrows self);
      row ← IntegerMatrixRow_init self i;
      Ok (ItemRow row)
  | KeyOther => Raise ValueError
  end.

Definition __setitem__ (k : key) (value : pyobj) (self : ZZ_mat)
    : outcome unit * ZZ_mat :=
  match k with
  | KeyTuple i j =>
      lift (CInt.of_py i) (λ i,
      lift (CInt.of_py j) (λ j,
      lift (preprocess_indices i j (nrows self) (ncols self))
        (λ '(i, j) self,
          assign_Z_NR_mpz self (Z.to_nat i) (Z.to_nat j) value))) self
  | KeyIndex i =>
      lift (CInt.of_py i) (λ i,
      lift (preprocess_indices i i (nrows self) (nrows self))
        (λ _ self, (Raise NotImplementedError, self))) self
  | _ => (Raise ValueError, self)
  end.

(** [self.randomize(algorithm, **kwds)].  The generators are fplll's and
    draw from its random state; [int] and [float] are Python's. *)
Section Randomize.
Context {rng float : Type}.
Variable py_int : pyobj → outcome Z.
Variable py_float : pyobj → outcome float.
Variable gen_intrel : Z → ZZ_mat → rng → ZZ_mat * rng.
Variable gen_simdioph : Z → Z → ZZ_mat → rng → ZZ_mat * rng.
Variable gen_uniform : Z → ZZ_mat → rng → ZZ_mat * rng.
Variable gen_ntrulike : Z → Z → ZZ_mat → rng → ZZ_mat * rng.
Variable gen_ntrulike2 : Z → Z → ZZ_mat → rng → ZZ_mat * rng.
Variable gen_ajtai : float → ZZ_mat → rng → ZZ_mat * rng.

(** [kwds[name]]. *)
Definition kwds_get (kwds : gmap string pyobj) (name : string)
    : outcome pyobj :=
  match kwds !! name with
  | Some v => Ok v
  | None => Raise KeyError
  end.

Definition run (gen : ZZ_mat → rng → ZZ_mat * rng) (st : ZZ_mat * rng)
    : outcome unit * (ZZ_mat * rng) :=
  (Ok tt, gen st.1 st.2).

Definition randomize (algorithm : string) (kwds : gmap string pyobj)
    (st : ZZ_mat * rng) : outcome unit * (ZZ_mat * rng) :=
  if String.eqb algorithm "intrel" then
    lift (kwds_get kwds "bits" ≫= py_int) (λ bits,
      run (gen_intrel bits)) st
  else if String.eqb algorithm "simdioph" then
    lift (kwds_get kwds "bits" ≫= py_int) (λ bits,
    lift (kwds_get kwds "bits2" ≫= py_int) (λ bits2,
      run (gen_simdioph bits bits2))) st
  else if String.eqb algorithm "uniform" then
    lift (kwds_get kwds "bits" ≫= py_int) (λ bits,
      run (gen_uniform bits)) st
  else if String.eqb algorithm "ntrulike" then
    lift (kwds_get kwds "bits" ≫= py_int) (λ bits,
    lift (kwds_get kwds "q" ≫= py_int) (λ q,
      run (gen_ntrulike bits q))) st
  else if String.eqb algorithm "ntrulike2" then
    lift (kwds_get kwds "bits" ≫= py_int) (λ bits,
    lift (kwds_get kwds "q" ≫= py_int) (λ q,
      run (gen_ntrulike2 bits q))) st
  else if String.eqb algorithm "atjai" then
    lift (kwds_get kwds "alpha" ≫= py_float) (λ alpha,
      run (gen_ajtai alpha)) st
  else (Raise ValueError, st).
End Randomize.

(** ** Objects: the store of cores *)

Abbreviation store := (gmap positive ZZ_mat).

(** An [IntegerMatrix] object: the pointer [_core] to its [ZZ_mat]. *)
Record IntegerMatrix : Type := mkIntegerMatrix { _core : positive }.

(** [new]: a core at an address that is not in use. *)
Definition alloc (M : ZZ_mat) (h : store) : positive * store :=
  let l := fresh (dom h) in (l, <[l := M]> h).

Definition load_cell (l : positive) (i j : nat) (h : store) : Z :=
  cell (h !!! l) i j.

Definition store_cell (l : positive) (i j : nat) (v : Z) (h : store)
    : store :=
  alter (λ M, set_cell M i j v) l h.

(** The loops of the copy constructor:
    [self._core[0][i][j] = arg0._core[0][i][j]]. *)
Definition init_copy_cells (arg0 self : IntegerMatrix) (h : store) : store :=
  foldl (λ h i,
    foldl (λ h j,
        store_cell (_core self) i j (load_cell (_core arg0) i j h) h)
      h (seq 0 (getCols (h !!! _core self))))
    h (seq 0 (getRows (h !!! _core self))).

(** The arguments [__init__] tells apart. *)
Inductive initarg : Type :=
  | ArgInt (z : Z)
  | ArgMatrix (A : IntegerMatrix)
  | ArgNone
  | ArgOther.

(** [IntegerMatrix(arg0, arg1)]: the object it constructs. *)
Definition __init__ (arg0 arg1 : initarg) (h : store)
    : outcome IntegerMatrix * store :=
  match arg0, arg1 with
  | ArgInt arg0, ArgInt arg1 =>
      match IntegerMatrix_of_shape arg0 arg1 with
      | Ok M => let '(l, h) := alloc M h in (Ok (mkIntegerMatrix l), h)
      | Raise e => (Raise e, h)
      | Abort f => (Abort f, h)
      end
  | ArgMatrix arg0, ArgNone =>
      match h !! _core arg0 with
      | Some A0 =>
          let '(l, h) := alloc (new_ZZ_mat (getRows A0) (getCols A0)) h in
          let self := mkIntegerMatrix l in
          (Ok self, init_copy_cells arg0 self h)
      | None => (Abort SIGSEGV, h)
      end
  | _, _ => (Raise TypeError, h)
  end.

(** [A[key]] and [A[key] = value] on objects. *)
Definition getitem (self : IntegerMatrix) (k : key) (h : store)
    : outcome item :=
  match h !! _core self with
  | Some M => __getitem__ M k
  | None => Abort SIGSEGV
  end.

Definition setitem (self : IntegerMatrix) (k : key) (value : pyobj)
    (h : store) : outcome unit * store :=
  match h !! _core self with
  | Some M =>
      let '(r, M) := __setitem__ k value M in (r, <[_core self := M]> h)
  | None => (Abort SIGSEGV, h)
  end.

(** [A == B] on objects. *)
Definition equal (A B : IntegerMatrix) (h : store) : outcome bool :=
  match h !! _core A, h !! _core B with
  | Some MA, Some MB => __richcmp__ MA MB 2
  | _, _ => Abort SIGSEGV
  end.

(** ** Row references *)

(** [A[i]] on objects: the branch of [__getitem__] for an integer key
    builds an [IntegerMatrixRow], which keeps a reference to the matrix,
    not a copy of the row. *)
Module IntegerMatrixRow.
Record t : Type := mk { m : IntegerMatrix; row : Z }.

(** [IntegerMatrixRow(M, row)]. *)
Definition __init__ (M : IntegerMatrix) (row : Z) (h : store) : outcome t :=
  match h !! _core M with
  | Some core =>
      '(row, _) ← preprocess_indices row row (nrows core) (nrows core);
      Ok (mk M row)
  | None => Abort SIGSEGV
  end.

(** [r[column]]. *)
Definition __getitem__ (self : t) (column : Z) (h : store) : outcome pyobj :=
  match h !! _core (m self) with
  | Some core =>
      column ← CInt.of_py column;
      '(column, _) ←
        preprocess_indices column column (ncols core) (ncols core);
      Ok (mpz_get_python
            (cell core (Z.to_nat (row self)) (Z.to_nat column)))
  | None => Abort SIGSEGV
  end.
End IntegerMatrixRow.

Definition getitem_row (self : IntegerMatrix) (i : Z) (h : store)
    : outcome IntegerMatrixRow.t :=
  match h !! _core self with
  | Some core =>
      i ← CInt.of_py i;
      '(i, _) ← preprocess_indices i i (nrows core) (nrows core);
      IntegerMatrixRow.__init__ self i h
  | None => Abort SIGSEGV
  end.

(** ** Methods that raise other exceptions *)

(** The exceptions of [exn], and two more that the methods below let
    through: [StopIteration] from [next] and [ZeroDivisionError] from
    Python's [%]. *)
Inductive raised : Set :=
  | Builtin (e : exn)
  | StopIteration
  | ZeroDivisionError.

Inductive result (A : Type) : Type :=
  | Returned (a : A)
  | Raised (e : raised)
  | Aborted (f : fatal).
Arguments Returned {A} a.
Arguments Raised {A} e.
Arguments Aborted {A} f.

Definition of_outcome {A : Type} (o : outcome A) : result A :=
  match o with
  | Ok a => Returned a
  | Raise e => Raised (Builtin e)
  | Abort f => Aborted f
  end.

Global Instance result_ret : MRet result := λ A a, Returned a.
Global Instance result_bind : MBind result := λ A B f m,
  match m with
  | Returned a => f a
  | Raised e => Raised e
  | Aborted s => Aborted s
  end.

(** The loop [for_each], for bodies with a [result]. *)
Fixpoint for_each_r {X S : Type} (body : X → S → result unit * S)
    (xs : list X) (s : S) : result unit * S :=
  match xs with
  | [] => (Returned tt, s)
  | x :: xs =>
      match body x s with
      | (Returned _, s') => for_each_r body xs s'
      | (r, s') => (r, s')
      end
  end.

(** Python's [x % n] on integers. *)
Definition py_mod (x n : Z) : result Z :=
  if (n =? 0)%Z then Raised ZeroDivisionError else Returned (x `mod` n)%Z.

(** The loops of [submatrix] over [range(a, c)] and [range(b, d)], with
    the counters [i] and [j]. *)
Definition submatrix_block (self : ZZ_mat) (a b c d : Z) (A : ZZ_mat)
    : ZZ_mat :=
  (foldl (λ '(i, A) row,
     (CInt.incr i,
      (foldl (λ '(j, A) col,
         (CInt.incr j,
          set_cell A (Z.to_nat i) (Z.to_nat j)
            (cell self (Z.to_nat row) (Z.to_nat col))))
        (0%Z, A) (seqZ b (d - b))).2))
    (0%Z, A) (seqZ a (c - a))).2.

(** [self.submatrix(a, b, c, d)] with four integers, the first row [a] and
    the first column [b] not negative: the calling convention with a start
    and a stop.  A negative stop is first reduced with Python's [%]. *)
Definition submatrix_range (self : ZZ_mat) (a b : nat) (c d : Z)
    : result ZZ_mat :=
  c ← (if (c <? 0)%Z then py_mod c (nrows self) else Returned c);
  d ← (if (d <? 0)%Z then py_mod d (ncols self) else Returned d);
  '(a, b) ← of_outcome
    (preprocess_indices (Z.of_nat a) (Z.of_nat b) (nrows self) (ncols self));
  '(c, d) ← of_outcome
    (preprocess_indices c d (nrows self + 1) (ncols self + 1));
  if (c <? a)%Z then Raised (Builtin ValueError)
  else if (d <? b)%Z then Raised (Builtin ValueError)
  else
    m ← of_outcome (CInt.of_py (c - a));
    n ← of_outcome (CInt.of_py (d - b));
    A ← of_outcome (IntegerMatrix_of_shape m n);
    Returned (submatrix_block self a b c d A).

(** The loops of [apply_transform]:
    [self._core[0][start_row+i][j].set(B._core[0][i][j])]. *)
Definition transform_cells (B : ZZ_mat) (start_row : nat) (self : ZZ_mat)
    : ZZ_mat :=
  foldl (λ self i,
    foldl (λ self j, set_cell self (start_row + i) j (cell B i j))
      self (seq 0 (getCols B)))
    self (seq 0 (getRows B)).

(** [self.apply_transform(U, start_row)], for a [start_row] that is not
    negative. *)
Definition apply_transform (U : ZZ_mat) (start_row : nat) (self : ZZ_mat)
    : result unit * ZZ_mat :=
  match submatrix_range self start_row 0 (Z.of_nat start_row + nrows U)
          (ncols self) with
  | Returned Sub =>
      match __mul__ U Sub with
      | Ok B => (Returned tt, transform_cells B start_row self)
      | Raise e => (Raised (Builtin e), self)
      | Abort f => (Aborted f, self)
      end
  | Raised e => (Raised e, self)
  | Aborted f => (Aborted f, self)
  end.

(** The body of the loops of [set_iterable]: [self[i, j] = next(it)].  The
    state is what the iterator has left, and the matrix. *)
Definition set_iterable_cell (i j : nat) (st : list pyobj * ZZ_mat)
    : result unit * (list pyobj * ZZ_mat) :=
  match st.1 with
  | [] => (Raised StopIteration, st)
  | value :: it =>
      let '(r, self) :=
        __setitem__ (KeyTuple (Z.of_nat i) (Z.of_nat j)) value st.2 in
      (of_outcome r, (it, self))
  end.

(** [self.set_iterable(A)] for an iterable that yields the values [A]. *)
Definition set_iterable (A : list pyobj) (self : ZZ_mat)
    : result unit * ZZ_mat :=
  let m := getRows self in
  let n := getCols self in
  let '(r, (_, self)) :=
    for_each_r (λ i, for_each_r (set_iterable_cell i) (seq 0 n)) (seq 0 m)
      (A, self) in
  (r, self).

(** [IntegerMatrix.from_iterable(nrows, ncols, it)]. *)
Definition from_iterable (nrows ncols : Z) (it : list pyobj)
    : result ZZ_mat :=
  A ← of_outcome (IntegerMatrix_of_shape nrows ncols);
  match set_iterable it A with
  | (Returned _, A) => Returned A
  | (Raised e, _) => Raised e
  | (Aborted f, _) => Aborted f
  end.

(** ** Nested lists as matrix-like objects *)

(** [xs[i]] on a Python list, for an index that is not negative. *)
Definition list_getitem {T : Type} (xs : list T) (i : nat) : outcome T :=
  match xs !! i with
  | Some x => Ok x
  | None => Raise IndexError
  end.

(** [xs[i, j]] on a Python list: lists take no tuple as index. *)
Definition list_getitem_tuple {T : Type} (xs : list (list T)) (i j : nat)
    : outcome T :=
  Raise TypeError.

(** [self.set_matrix(A)] for a list of lists [A]. *)
Definition set_matrix_lists (A : list (list pyobj)) (self : ZZ_mat)
    : outcome unit * ZZ_mat :=
  let m := getRows self in
  let n := getCols self in
  match
    for_each (λ i,
      for_each (λ j,
        lift (list_getitem_tuple A i j)
          (__setitem__ (KeyTuple (Z.of_nat i) (Z.of_nat j))))
        (seq 0 n))
      (seq 0 m) self
  with
  | (Raise TypeError, self) =>
      for_each (λ i,
        for_each (λ j,
          lift (row ← list_getitem A i; list_getitem row j)
            (__setitem__ (KeyTuple (Z.of_nat i) (Z.of_nat j))))
          (seq 0 n))
        (seq 0 m) self
  | r => r
  end.

(** [IntegerMatrix.from_matrix(A, nrows, ncols)] for a list of lists [A]:
    a list has no attribute [nrows] or [ncols], and it has a length. *)
Definition from_matrix_lists (A : list (list pyobj)) (nrows ncols : option Z)
    : outcome ZZ_mat :=
  let nrows := default (Z.of_nat (length A)) nrows in
  ncols ← match ncols with
          | Some ncols => Ok ncols
          | None => row ← list_getitem A 0; Ok (Z.of_nat (length row))
          end;
  m ← CInt.of_py nrows;
  n ← CInt.of_py ncols;
  B ← IntegerMatrix_of_shape m n;
  match set_matrix_lists A B with
  | (Ok _, B) => Ok B
  | (Raise e, _) => Raise e
  | (Abort f, _) => Abort f
  end.

(** [A[i][j] = v] on a list of lists. *)
Definition lists_setitem {T : Type} (i j : nat) (v : T) (A : list (list T))
    : outcome unit * list (list T) :=
  match A !! i with
  | Some row =>
      if decide (j < length row) then (Ok tt, <[i := <[j := v]> row]> A)
      else (Raise IndexError, A)
  | None => (Raise IndexError, A)
  end.

(** [self.to_matrix(A)] for a list of lists [A]: the first loop fails on
    the tuple index, and the second one assigns [A[i][j]] to itself. *)
Definition to_matrix_lists (self : ZZ_mat) (A : list (list pyobj))
    : outcome (list (list pyobj)) :=
  let m := getRows self in
  let n := getCols self in
  let run :=
    match
      for_each (λ i,
        for_each (λ j,
          lift (__getitem__ self (KeyTuple (Z.of_nat i) (Z.of_nat j)))
            (λ _ A, (@Raise unit TypeError, A)))
          (seq 0 n))
        (seq 0 m) A
    with
    | (Raise TypeError, A) =>
        for_each (λ i,
          for_each (λ j A,
            lift (row ← list_getitem A i; list_getitem row j)
              (lists_setitem i j) A)
            (seq 0 n))
          (seq 0 m) A
    | r => r
    end in
  match run with
  | (Ok _, A) => Ok A
  | (Raise e, _) => Raise e
  | (Abort f, _) => Abort f
  end.

(** ** Vocabulary of the statements *)

(** An index that is in range once normalised. *)
Definition valid_index (i m : Z) : Prop := (- m ≤ i < m)%Z.

(** The sum [f 0 + ... + f (n - 1)]. *)
Fixpoint sum_upto (n : nat) (f : nat → Z) : Z :=
  match n with
  | O => 0%Z
  | S n => (sum_upto n f + f n)%Z
  end.

(** The centred representative of [v] modulo [q]. *)
Definition centered (q v : Z) : Z :=
  let r := (v `mod` q)%Z in
  if (r >? q `div` 2)%Z then (r - q)%Z else r.

(** Two cores of the same shape. *)
Definition same_shape (A B : ZZ_mat) : Prop :=
  getRows A = getRows B ∧ getCols A = getCols B.

(** The test [mod] makes at row [i] on the normalised bounds. *)
Definition selected (start_row start_col stop_row stop_col : Z) (i : nat)
    : bool :=
  (start_row <=? Z.of_nat i)%Z && (Z.of_nat i <? stop_row)%Z
  && (start_col <=? Z.of_nat i)%Z && (Z.of_nat i <? stop_col)%Z.

(** What [mod] writes into a cell that holds [v]: the result of [mpz_mod],
    less [q] when it exceeds the floor of [q / 2]. *)
Definition reduced (q v : Z) : Z :=
  let t2 := (v `mod` Z.abs q)%Z in
  if (t2 >? q `div` 2)%Z then (t2 - q)%Z else t2.

(** The stop [submatrix] works with: a negative one is reduced with [%]. *)
Definition stop_index (c n : Z) : Z :=
  if (c <? 0)%Z then (c `mod` n)%Z else c.

(** A list of lists of Python integers, and its entry [A[i][j]]. *)
Definition pylists (zss : list (list Z)) : list (list pyobj) :=
  (λ row : list Z, PyInt <$> row) <$> zss.

Definition lists_entry (zss : list (list Z)) (i j : nat) : option Z :=
  row ← zss !! i; row !! j.

(** The identity matrix of size [k]. *)
Definition identity_mat (k : nat) : ZZ_mat :=
  mkZZ_mat k k
    ((λ i, (λ j, if decide (i = j) then 1%Z else 0%Z) <$> seq 0 k)
     <$> seq 0 k).

(** ** Matrices of the examples *)

(** The operands of the docstring of [__mul__]. *)
Definition doc_A : ZZ_mat := mkZZ_mat 2 2 [[2; 0]; [1; 3]]%Z.
Definition doc_B : ZZ_mat := mkZZ_mat 2 2 [[3; 2]; [3; 3]]%Z.

(** The matrix of the docstring of [mod]. *)
Definition doc_M : ZZ_mat := mkZZ_mat 2 2 [[1001; 102]; [13; 0]]%Z.

(** A matrix with more rows than columns. *)
Definition tall_M : ZZ_mat := mkZZ_mat 2 1 [[7]; [7]]%Z.

(** An object whose core is that matrix, and a store that holds it. *)
Definition doc_obj : IntegerMatrix := mkIntegerMatrix 1.
Definition doc_store : store := {[ 1%positive := doc_M ]}.

(** Three matrices whose products are defined; one entry is [2^64]. *)
Definition ex_A : ZZ_mat := mkZZ_mat 2 3 [[1; -2; 3]; [0; 4; 5]]%Z.
Definition ex_B : ZZ_mat := mkZZ_mat 3 1 [[7]; [-1]; [2]]%Z.
Definition ex_C : ZZ_mat := mkZZ_mat 1 2 [[18446744073709551616; -3]]%Z.

(** A matrix of three rows, and a transformation that swaps two rows. *)
Definition ex_S : ZZ_mat := mkZZ_mat 3 2 [[1; 2]; [3; 4]; [5; 6]]%Z.
Definition ex_U : ZZ_mat := mkZZ_mat 2 2 [[0; 1]; [1; 0]]%Z.


(** * Properties *)

(** ** The core *)

Lemma same_shape_refl A : same_shape A A.
Proof. by split. Qed.

Lemma same_shape_trans A B C :
  same_shape A B → same_shape B C → same_shape A C.
Proof. intros [??] [??]; split; congruence. Qed.

Lemma set_cell_shape M i j v : same_shape (set_cell M i j v) M.
Proof. by split. Qed.

Lemma wf_set_cell M i j v : wf M → wf (set_cell M i j v).
Proof.
  intros (Hlen & Hrows & Hr & Hc). repeat split; simpl; try done.
  - by rewrite length_alter.
  - apply Forall_alter; [done|]. intros row _ Hrow. by rewrite length_insert.
Qed.

Lemma wf_row_length M i row :
  wf M → matrix M !! i = Some row → length row = getCols M.
Proof.
  intros (_ & Hrows & _) Hrow.
  by apply (Forall_lookup_1 (λ row, length row = getCols M) _ _ _ Hrows Hrow).
Qed.

Lemma wf_lookup_row M i :
  wf M → i < getRows M → ∃ row, matrix M !! i = Some row ∧ length row = getCols M.
Proof.
  intros HM Hi. destruct (lookup_lt_is_Some_2 (matrix M) i) as [row Hrow].
  { destruct HM as [-> _]; done. }
  exists row; split; [done|]. by eapply wf_row_length.
Qed.

Lemma cell_set_cell_eq M i j v :
  wf M → i < getRows M → j < getCols M → cell (set_cell M i j v) i j = v.
Proof.
  intros HM Hi Hj. destruct (wf_lookup_row M i HM Hi) as (row & Hrow & Hlen).
  unfold cell, set_cell; simpl.
  rewrite list_lookup_alter_eq, Hrow; simpl.
  by rewrite list_lookup_insert_eq by lia.
Qed.

Lemma cell_set_cell_ne M i j v i' j' :
  (i', j') ≠ (i, j) → cell (set_cell M i j v) i' j' = cell M i' j'.
Proof.
  intros Hne. unfold cell, set_cell; simpl.
  destruct (decide (i = i')) as [<-|Hi].
  - rewrite list_lookup_alter_eq. destruct (matrix M !! i) as [row|]; simpl; [|done].
    rewrite list_lookup_insert_ne; [done|congruence].
  - by rewrite list_lookup_alter_ne.
Qed.

Lemma cell_set_cell M i j v i' j' :
  wf M → i < getRows M → j < getCols M →
  cell (set_cell M i j v) i' j'
  = if decide (i' = i ∧ j' = j) then v else cell M i' j'.
Proof.
  intros HM Hi Hj. case_decide as Hd.
  - destruct Hd as [-> ->]. by apply cell_set_cell_eq.
  - apply cell_set_cell_ne. naive_solver.
Qed.

Lemma wf_new_ZZ_mat r c :
  (Z.of_nat r ≤ CInt.INT_MAX)%Z → (Z.of_nat c ≤ CInt.INT_MAX)%Z →
  wf (new_ZZ_mat r c).
Proof.
  intros Hr Hc. repeat split; simpl; try done.
  - by rewrite length_replicate.
  - apply Forall_replicate. by rewrite length_replicate.
Qed.

Lemma cell_new_ZZ_mat r c i j : cell (new_ZZ_mat r c) i j = 0%Z.
Proof.
  unfold cell, new_ZZ_mat; simpl.
  destruct (replicate r (replicate c 0%Z) !! i) as [row|] eqn:Hrow; simpl; [|done].
  apply lookup_replicate in Hrow as [-> _].
  destruct (replicate c 0%Z !! j) as [x|] eqn:Hx; simpl; [|done].
  by apply lookup_replicate in Hx as [-> _].
Qed.

(** Two well-formed cores of one shape with the same cells are equal. *)
Lemma ZZ_mat_eq A B :
  wf A → wf B → same_shape A B →
  (∀ i j, i < getRows A → j < getCols A → cell A i j = cell B i j) →
  A = B.
Proof.
  intros HA HB [Hr Hc] Hcells.
  pose proof (λ i row, wf_row_length A i row HA) as HrowA.
  pose proof (λ i row, wf_row_length B i row HB) as HrowB.
  destruct HA as (HlenA & _), HB as (HlenB & _).
  destruct A as [rA cA rowsA], B as [rB cB rowsB]; simpl in *.
  assert (rowsA = rowsB) as ->; [|congruence].
  apply (list_eq_same_length _ _ rA); [congruence|done|].
  intros i rowA rowB Hi HA HB.
  apply (list_eq_same_length _ _ cA);
    [rewrite Hc; by eapply HrowB|by eapply HrowA|].
  intros j x y Hj Hx Hy.
  specialize (Hcells i j Hi Hj). unfold cell in Hcells; simpl in Hcells.
  by rewrite HA, HB in Hcells; simpl in Hcells; rewrite Hx, Hy in Hcells.
Qed.

(** Writing back the value a cell holds changes nothing. *)
Lemma set_cell_same M i j : set_cell M i j (cell M i j) = M.
Proof.
  destruct M as [r c rows]; unfold set_cell, cell; simpl. f_equal.
  apply list_eq; intros k. rewrite list_lookup_alter.
  case_decide as Hk; [subst k|done].
  destruct (rows !! i) as [row|] eqn:Hrow; simpl; [|done]. f_equal.
  apply list_insert_id'. intros Hj.
  destruct (lookup_lt_is_Some_2 row j Hj) as [x Hx]. by rewrite Hx.
Qed.

(** ** Loops over the cells *)

Lemma for_each_cons {X S : Type} (body : X → S → outcome unit * S) x xs s :
  for_each body (x :: xs) s
  = match body x s with
    | (Ok _, s') => for_each body xs s'
    | (r, s') => (r, s')
    end.
Proof. done. Qed.

(** A loop whose body never raises is a fold. *)
Lemma for_each_total {X S : Type} (body : X → S → outcome unit * S)
    (g : X → S → S) xs s :
  (∀ x s, body x s = (Ok tt, g x s)) →
  for_each body xs s = (Ok tt, foldl (λ s x, g x s) s xs).
Proof.
  intros Hbody. revert s. induction xs as [|x xs IH]; intros s; simpl; [done|].
  by rewrite Hbody, IH.
Qed.

(** The two nested loops [for i in range(r): for j in range(c)] whose body
    [g i j] rewrites cell [(i, j)] to [f i j] of its value and touches
    nothing else. *)
Section cell_loops.
Variable f : nat → nat → Z → Z.
Variable g : nat → nat → ZZ_mat → ZZ_mat.
Hypothesis g_wf : ∀ i j A, wf A → wf (g i j A).
Hypothesis g_shape : ∀ i j A, same_shape (g i j A) A.
Hypothesis g_cell : ∀ i j A i' j',
  wf A → i < getRows A → j < getCols A →
  cell (g i j A) i' j'
  = if decide (i' = i ∧ j' = j) then f i j (cell A i j) else cell A i' j'.

Lemma cols_loop_spec i c A :
  wf A → i < getRows A → c ≤ getCols A →
  let A' := foldl (λ A j, g i j A) A (seq 0 c) in
  wf A' ∧ same_shape A' A
  ∧ ∀ i' j', cell A' i' j'
      = if decide (i' = i ∧ j' < c) then f i j' (cell A i' j')
        else cell A i' j'.
Proof.
  intros HA Hi. induction c as [|c IH]; intros Hc; cbv zeta.
  - split_and!; [done|apply same_shape_refl|].
    intros i' j'. case_decide; [lia|done].
  - rewrite seq_S, foldl_snoc; simpl.
    destruct IH as (Hwf & Hsh & Hcell); [lia|].
    split_and!.
    + by apply g_wf.
    + eapply same_shape_trans; [apply g_shape|done].
    + intros i' j'. destruct Hsh as [Hr Hcs].
      rewrite g_cell by (done || lia). rewrite !Hcell.
      repeat destruct (decide _); first [done | exfalso; lia | by destruct_and!; subst].
Qed.

Lemma rows_loop_spec r c A :
  wf A → r ≤ getRows A → c ≤ getCols A →
  let A' := foldl (λ A i, foldl (λ A j, g i j A) A (seq 0 c)) A (seq 0 r) in
  wf A' ∧ same_shape A' A
  ∧ ∀ i' j', cell A' i' j'
      = if decide (i' < r ∧ j' < c) then f i' j' (cell A i' j')
        else cell A i' j'.
Proof.
  intros HA Hr Hc. induction r as [|r IH]; cbv zeta.
  - split_and!; [done|apply same_shape_refl|].
    intros i' j'. case_decide; [lia|done].
  - rewrite seq_S, foldl_snoc; simpl.
    destruct IH as (Hwf & Hsh & Hcell); [lia|].
    destruct Hsh as [Hrs Hcs].
    destruct (cols_loop_spec r c _ Hwf) as (Hwf' & Hsh' & Hcell'); [lia..|].
    split_and!; [done|by eapply same_shape_trans|].
    intros i' j'. rewrite Hcell', !Hcell.
    repeat destruct (decide _); first [done | exfalso; lia | by destruct_and!; subst].
Qed.
End cell_loops.

(** ** Finite sums *)

Lemma sum_upto_ext n f g :
  (∀ t, t < n → f t = g t) → sum_upto n f = sum_upto n g.
Proof.
  induction n as [|n IH]; intros Hfg; simpl; [done|].
  rewrite IH, Hfg by (intros; auto with lia). done.
Qed.

Lemma sum_upto_add n f g :
  sum_upto n (λ t, f t + g t)%Z = (sum_upto n f + sum_upto n g)%Z.
Proof. induction n as [|n IH]; simpl; [done|]. rewrite IH; lia. Qed.

Lemma sum_upto_mul_r n f c :
  sum_upto n (λ t, f t * c)%Z = (sum_upto n f * c)%Z.
Proof. induction n as [|n IH]; simpl; [done|]. rewrite IH; lia. Qed.

Lemma sum_upto_mul_l n f c :
  sum_upto n (λ t, c * f t)%Z = (c * sum_upto n f)%Z.
Proof. induction n as [|n IH]; simpl; [lia|]. rewrite IH; lia. Qed.

Lemma sum_upto_zero n : sum_upto n (λ _, 0%Z) = 0%Z.
Proof. induction n as [|n IH]; simpl; [done|]. by rewrite IH. Qed.

(** The order of two nested sums can be exchanged. *)
Lemma sum_upto_swap n m (F : nat → nat → Z) :
  sum_upto n (λ t, sum_upto m (λ s, F s t))
  = sum_upto m (λ s, sum_upto n (λ t, F s t)).
Proof.
  induction n as [|n IH]; simpl.
  - by rewrite sum_upto_zero.
  - by rewrite sum_upto_add, IH.
Qed.

(** ** Construction from a shape *)

Lemma of_py_in_range z :
  (CInt.INT_MIN ≤ z ≤ CInt.INT_MAX)%Z → CInt.of_py z = Ok z.
Proof.
  intros Hz. unfold CInt.of_py, CInt.in_range.
  by rewrite andb_true_intro by (split; apply Z.leb_le; lia).
Qed.

Lemma of_shape_ok r c :
  (Z.of_nat r ≤ CInt.INT_MAX)%Z → (Z.of_nat c ≤ CInt.INT_MAX)%Z →
  IntegerMatrix_of_shape (Z.of_nat r) (Z.of_nat c) = Ok (new_ZZ_mat r c).
Proof.
  intros Hr Hc. unfold IntegerMatrix_of_shape.
  rewrite (proj2 (Z.ltb_ge _ _)), (proj2 (Z.ltb_ge _ _)) by lia.
  rewrite !of_py_in_range by (unfold CInt.INT_MIN; lia). simpl.
  by rewrite !Nat2Z.id.
Qed.

(** ** The product *)

Lemma mul_entry_sum A B i j tmp :
  mul_entry A B i j tmp
  = (tmp + sum_upto (getCols A) (λ t, cell A i t * cell B t j))%Z.
Proof.
  unfold mul_entry. induction (getCols A) as [|n IH]; [simpl; lia|].
  rewrite seq_S, foldl_snoc, IH. unfold addmul; simpl. lia.
Qed.

Lemma mul_cells_spec A B res :
  wf res → getRows A ≤ getRows res → getCols B ≤ getCols res →
  wf (mul_cells A B res) ∧ same_shape (mul_cells A B res) res
  ∧ ∀ i j, cell (mul_cells A B res) i j
      = if decide (i < getRows A ∧ j < getCols B)
        then mul_entry A B i j (cell res i j) else cell res i j.
Proof.
  intros Hres Hr Hc. unfold mul_cells.
  apply (rows_loop_spec (λ i j v, mul_entry A B i j v)
           (λ i j res, set_cell res i j (mul_entry A B i j (cell res i j))));
    try done.
  - intros; by apply wf_set_cell.
  - intros; by apply cell_set_cell.
Qed.

(** ** Comparison *)

Lemma richcmp_row_refl M i js : richcmp_row M M i js true = true.
Proof. induction js as [|j js IH]; simpl; [done|]. by rewrite Z.eqb_refl. Qed.

Lemma richcmp_rows_refl M rows : richcmp_rows M M rows true = true.
Proof.
  induction rows as [|i rows IH]; simpl; [done|]. by rewrite richcmp_row_refl.
Qed.

Lemma richcmp_refl M : __richcmp__ M M 2 = Ok true.
Proof.
  unfold __richcmp__; simpl. rewrite !Z.eqb_refl; simpl.
  by rewrite richcmp_rows_refl.
Qed.

(** What [__mul__] returns on operands whose shapes agree. *)
Lemma mul_defined A B :
  wf A → wf B → getCols A = getRows B →
  ∃ C, __mul__ A B = Ok C ∧ wf C
    ∧ getRows C = getRows A ∧ getCols C = getCols B
    ∧ ∀ i j, i < getRows A → j < getCols B →
        cell C i j = sum_upto (getCols A) (λ t, cell A i t * cell B t j)%Z.
Proof.
  intros HA HB Hdim.
  pose proof HA as (_ & _ & HrA & _). pose proof HB as (_ & _ & _ & HcB).
  exists (mul_cells A B (new_ZZ_mat (getRows A) (getCols B))).
  destruct (mul_cells_spec A B (new_ZZ_mat (getRows A) (getCols B)))
    as (Hwf & [Hr Hc] & Hcell); [by apply wf_new_ZZ_mat|done..|].
  split_and!; try done.
  - unfold __mul__, nrows, ncols. rewrite decide_False by lia.
    by rewrite of_shape_ok.
  - intros i j Hi Hj. rewrite Hcell, decide_True by done.
    rewrite mul_entry_sum, cell_new_ZZ_mat. lia.
Qed.

(** Ground instances of [wf] and [valid_index], for the examples. *)
Ltac wf_ground :=
  unfold wf; simpl; split_and!;
  [reflexivity | repeat constructor | unfold CInt.INT_MAX; lia ..].

Ltac valid_ground := unfold valid_index, nrows, ncols; simpl; lia.

(** C3: the product [A * B] raises the dimension error exactly when the
    number of columns of [A] differs from the number of rows of [B];
    otherwise it has the rows of [A], the columns of [B], and its entry
    [(i, j)] is the exact sum over [t] of [A[i,t] * B[t,j]]. *)
Theorem mul_correct A B :
  wf A → wf B →
  (is_Raise (__mul__ A B) ↔ getCols A ≠ getRows B)
  ∧ (getCols A ≠ getRows B → __mul__ A B = Raise ValueError)
  ∧ (getCols A = getRows B →
     ∃ C, __mul__ A B = Ok C
       ∧ getRows C = getRows A ∧ getCols C = getCols B
       ∧ ∀ i j, i < getRows A → j < getCols B →
           cell C i j
           = sum_upto (getCols A) (λ t, cell A i t * cell B t j)%Z).
Proof.
  intros HA HB.
  assert (getCols A ≠ getRows B → __mul__ A B = Raise ValueError) as Hne.
  { intros Hne. unfold __mul__, nrows, ncols. by rewrite decide_True by lia. }
  split_and!; [split| done |].
  - intros [e He]. intros Heq.
    destruct (mul_defined A B HA HB Heq) as (C & HC & _). congruence.
  - intros H. exists ValueError. by apply Hne.
  - intros Heq.
    destruct (mul_defined A B HA HB Heq) as (C & HC & _ & Hr & Hc & Hcell).
    by exists C.
Qed.

Lemma mul_correct_witness :
  wf doc_A ∧ wf doc_B
  ∧ (is_Raise (__mul__ doc_A doc_B) ↔ getCols doc_A ≠ getRows doc_B)
  ∧ (getCols doc_A ≠ getRows doc_B → __mul__ doc_A doc_B = Raise ValueError)
  ∧ (getCols doc_A = getRows doc_B →
     ∃ C, __mul__ doc_A doc_B = Ok C
       ∧ getRows C = getRows doc_A ∧ getCols C = getCols doc_B
       ∧ ∀ i j, i < getRows doc_A → j < getCols doc_B →
           cell C i j
           = sum_upto (getCols doc_A) (λ t, cell doc_A i t * cell doc_B t j)%Z).
Proof.
  assert (wf doc_A) as HA by wf_ground.
  assert (wf doc_B) as HB by wf_ground.
  split; [exact HA|]. split; [exact HB|].
  exact (mul_correct doc_A doc_B HA HB).
Defined.

(** C6: the product is associative: for operands of compatible shapes both
    bracketings succeed and give the same matrix, which [==] confirms. *)
Theorem mul_assoc A B C :
  wf A → wf B → wf C →
  getCols A = getRows B → getCols B = getRows C →
  ∃ L R,
    (AB ← __mul__ A B; __mul__ AB C) = Ok L
    ∧ (BC ← __mul__ B C; __mul__ A BC) = Ok R
    ∧ L = R
    ∧ __richcmp__ L R 2 = Ok true.
Proof.
  intros HA HB HC HAB HBC.
  destruct (mul_defined A B HA HB HAB) as (AB & EAB & WAB & RAB & CAB & cAB).
  destruct (mul_defined B C HB HC HBC) as (BC & EBC & WBC & RBC & CBC & cBC).
  destruct (mul_defined AB C WAB HC) as (L & EL & WL & RL & CL & cL);
    [congruence|].
  destruct (mul_defined A BC HA WBC) as (R & ER & WR & RR & CR & cR);
    [congruence|].
  assert (L = R) as HLR.
  { apply ZZ_mat_eq; [done|done|split; congruence|].
    intros i j Hi Hj. rewrite cL, cR by congruence.
    rewrite CAB.
    rewrite (sum_upto_ext _ _
      (λ t, sum_upto (getCols A) (λ s, cell A i s * cell B s t * cell C t j))%Z).
    2:{ intros t Ht. rewrite cAB by congruence. by rewrite sum_upto_mul_r. }
    rewrite sum_upto_swap. apply sum_upto_ext. intros s Hs.
    rewrite cBC by congruence. rewrite <- sum_upto_mul_l.
    apply sum_upto_ext. intros t Ht. lia. }
  exists L, R. rewrite EAB, EBC; simpl. split_and!; try done.
  subst R. apply richcmp_refl.
Qed.

Lemma mul_assoc_witness :
  wf ex_A ∧ wf ex_B ∧ wf ex_C
  ∧ getCols ex_A = getRows ex_B ∧ getCols ex_B = getRows ex_C
  ∧ ∃ L R,
      (AB ← __mul__ ex_A ex_B; __mul__ AB ex_C) = Ok L
      ∧ (BC ← __mul__ ex_B ex_C; __mul__ ex_A BC) = Ok R
      ∧ L = R
      ∧ __richcmp__ L R 2 = Ok true.
Proof.
  assert (wf ex_A) as HA by wf_ground. assert (wf ex_B) as HB by wf_ground.
  assert (wf ex_C) as HC by wf_ground.
  split_and!; [exact HA|exact HB|exact HC|reflexivity|reflexivity|].
  exact (mul_assoc ex_A ex_B ex_C HA HB HC eq_refl eq_refl).
Defined.

(** ** Indices *)

Lemma normalize_valid i m :
  valid_index i m → (0 ≤ normalize i m < m)%Z.
Proof.
  unfold valid_index, normalize. intros Hi.
  destruct (Z.ltb_spec i 0); lia.
Qed.

Lemma normalize_idemp i m :
  valid_index i m → normalize (normalize i m) m = normalize i m.
Proof.
  intros Hi. pose proof (normalize_valid i m Hi) as Hn.
  unfold normalize at 1. destruct (Z.ltb_spec (normalize i m) 0); [lia|done].
Qed.

Lemma in_bounds_true i m : (0 ≤ i < m)%Z → in_bounds i m = true.
Proof.
  intros Hi. unfold in_bounds.
  apply andb_true_intro; split; [apply Z.leb_le|apply Z.ltb_lt]; lia.
Qed.

Lemma preprocess_indices_valid i j m n :
  valid_index i m → valid_index j n →
  preprocess_indices i j m n = Ok (normalize i m, normalize j n).
Proof.
  intros Hi%normalize_valid Hj%normalize_valid. unfold preprocess_indices.
  by rewrite !in_bounds_true.
Qed.

Lemma of_py_valid i m :
  valid_index i m → (m ≤ CInt.INT_MAX)%Z → CInt.of_py i = Ok i.
Proof.
  unfold valid_index. intros Hi Hm. apply of_py_in_range.
  unfold CInt.INT_MIN, CInt.INT_MAX in *. lia.
Qed.

(** ** Reading and writing an entry *)

Lemma getitem_entry A i j :
  wf A → valid_index i (nrows A) → valid_index j (ncols A) →
  __getitem__ A (KeyTuple i j)
  = Ok (ItemEntry (PyInt (cell A (Z.to_nat (normalize i (nrows A)))
                                 (Z.to_nat (normalize j (ncols A)))))).
Proof.
  intros (_ & _ & Hr & Hc) Hi Hj. unfold __getitem__.
  rewrite (of_py_valid i (nrows A)), (of_py_valid j (ncols A)) by done.
  simpl. by rewrite preprocess_indices_valid.
Qed.

Lemma setitem_entry A i j value :
  wf A → valid_index i (nrows A) → valid_index j (ncols A) →
  __setitem__ (KeyTuple i j) value A
  = assign_Z_NR_mpz A (Z.to_nat (normalize i (nrows A)))
      (Z.to_nat (normalize j (ncols A))) value.
Proof.
  intros (_ & _ & Hr & Hc) Hi Hj. unfold __setitem__.
  rewrite (of_py_valid i (nrows A)), (of_py_valid j (ncols A)) by done.
  simpl. by rewrite preprocess_indices_valid.
Qed.

(** An assignment leaves the shape and the invariant of the core alone,
    whatever its outcome. *)
Lemma setitem_preserves k value A r A' :
  __setitem__ k value A = (r, A') → wf A → wf A' ∧ same_shape A' A.
Proof.
  intros Hset HA.
  assert (∀ i j, assign_Z_NR_mpz A i j value = (r, A') →
                 wf A' ∧ same_shape A' A) as Hassign.
  { intros i j. unfold assign_Z_NR_mpz.
    destruct (assign_mpz value); intros [= <- <-];
      (split; [by try apply wf_set_cell|by split]). }
  destruct k as [i j| | i |]; simpl in Hset.
  - unfold lift in Hset.
    destruct (CInt.of_py i); [|by simplify_eq..].
    destruct (CInt.of_py j); [|by simplify_eq..].
    destruct (preprocess_indices _ _ _ _) as [[i' j']| |]; [|by simplify_eq..].
    by eapply Hassign.
  - by simplify_eq.
  - unfold lift in Hset.
    destruct (CInt.of_py i); [|by simplify_eq..].
    destruct (preprocess_indices _ _ _ _) as [[i' j']| |]; by simplify_eq.
  - by simplify_eq.
Qed.

(** C7: for a valid index pair and any integer [v], of whatever size,
    [A[i, j] = v] succeeds and [A[i, j]] then returns exactly [v]. *)
Theorem set_then_get A i j v :
  wf A → valid_index i (nrows A) → valid_index j (ncols A) →
  ∃ A', __setitem__ (KeyTuple i j) (PyInt v) A = (Ok tt, A')
    ∧ __getitem__ A' (KeyTuple i j) = Ok (ItemEntry (PyInt v)).
Proof.
  intros HA Hi Hj.
  pose proof (normalize_valid _ _ Hi) as Hni.
  pose proof (normalize_valid _ _ Hj) as Hnj.
  eexists. split.
  - rewrite setitem_entry by done. reflexivity.
  - rewrite getitem_entry; [|by apply wf_set_cell|done..].
    unfold nrows, ncols in *; simpl.
    rewrite cell_set_cell_eq; [done|done|lia..].
Qed.

Lemma set_then_get_witness :
  wf doc_M ∧ valid_index (-1) (nrows doc_M) ∧ valid_index 0 (ncols doc_M)
  ∧ ∃ A', __setitem__ (KeyTuple (-1) 0) (PyInt (2 ^ 70)) doc_M = (Ok tt, A')
      ∧ __getitem__ A' (KeyTuple (-1) 0) = Ok (ItemEntry (PyInt (2 ^ 70))).
Proof.
  assert (wf doc_M) as HM by wf_ground.
  assert (valid_index (-1) (nrows doc_M)) as Hi by valid_ground.
  assert (valid_index 0 (ncols doc_M)) as Hj by valid_ground.
  split_and!; [exact HM|exact Hi|exact Hj|].
  exact (set_then_get doc_M (-1) 0 (2 ^ 70) HM Hi Hj).
Defined.

(** C10: for a valid row index, [A[i] = value] raises
    [NotImplementedError] and the matrix is left as it was; so is every
    object of the store. *)
Theorem setitem_row_not_implemented A i value :
  wf A → valid_index i (nrows A) →
  __setitem__ (KeyIndex i) value A = (Raise NotImplementedError, A)
  ∧ ∀ (self : IntegerMatrix) (h : store),
      h !! _core self = Some A →
      setitem self (KeyIndex i) value h = (Raise NotImplementedError, h).
Proof.
  intros HA Hi.
  assert (__setitem__ (KeyIndex i) value A = (Raise NotImplementedError, A))
    as Hset.
  { destruct HA as (_ & _ & Hr & _). unfold __setitem__.
    rewrite (of_py_valid i (nrows A)) by done. simpl.
    by rewrite preprocess_indices_valid. }
  split; [done|]. intros self h Hself. unfold setitem.
  rewrite Hself, Hset. by rewrite insert_id.
Qed.

Lemma setitem_row_not_implemented_witness :
  wf doc_M ∧ valid_index (-2) (nrows doc_M)
  ∧ __setitem__ (KeyIndex (-2)) PyNone doc_M = (Raise NotImplementedError, doc_M)
  ∧ ∀ (self : IntegerMatrix) (h : store),
      h !! _core self = Some doc_M →
      setitem self (KeyIndex (-2)) PyNone h = (Raise NotImplementedError, h).
Proof.
  assert (wf doc_M) as HM by wf_ground.
  assert (valid_index (-2) (nrows doc_M)) as Hi by valid_ground.
  split_and!; [exact HM|exact Hi|..];
    apply (setitem_row_not_implemented doc_M (-2) PyNone HM Hi).
Defined.

(** ** Copies *)

Lemma copy_cells_spec A N :
  wf N → getRows A ≤ getRows N → getCols A ≤ getCols N →
  wf (copy_cells A N) ∧ same_shape (copy_cells A N) N
  ∧ ∀ i j, cell (copy_cells A N) i j
      = if decide (i < getRows A ∧ j < getCols A)
        then cell A i j else cell N i j.
Proof.
  intros HN Hr Hc. unfold copy_cells.
  apply (rows_loop_spec (λ i j _, cell A i j)
           (λ i j N, set_cell N i j (cell A i j))); try done.
  - intros; by apply wf_set_cell.
  - intros; by apply cell_set_cell.
Qed.

(** Filling a fresh core of the shape of [A] from [A] rebuilds [A]. *)
Lemma copy_cells_new A :
  wf A → copy_cells A (new_ZZ_mat (getRows A) (getCols A)) = A.
Proof.
  intros HA. pose proof HA as (_ & _ & Hr & Hc).
  destruct (copy_cells_spec A (new_ZZ_mat (getRows A) (getCols A)))
    as (Hwf & Hsh & Hcell); [by apply wf_new_ZZ_mat|done..|].
  apply ZZ_mat_eq; [done..|].
  destruct Hsh as [Hrs Hcs]; simpl in *.
  intros i j Hi Hj. rewrite Hcell, decide_True; [done|lia].
Qed.

Lemma copy_ok A : wf A → __copy__ A = Ok A.
Proof.
  intros HA. pose proof HA as (_ & _ & Hr & Hc).
  unfold __copy__, nrows, ncols. rewrite of_shape_ok by done. simpl.
  by rewrite copy_cells_new.
Qed.

(** The loops of the copy constructor, which go through the store, only
    change the core they write to, provided it is not the one they read. *)
Lemma store_cell_insert (h : store) l N i j v :
  store_cell l i j v (<[l := N]> h) = <[l := set_cell N i j v]> h.
Proof.
  unfold store_cell. apply map_eq; intros l'.
  destruct (decide (l = l')) as [<-|Hne].
  - by rewrite lookup_alter_eq, !lookup_insert_eq.
  - by rewrite lookup_alter_ne, !lookup_insert_ne.
Qed.

Lemma load_cell_insert_ne (h : store) a l A N i j :
  a ≠ l → h !! a = Some A → load_cell a i j (<[l := N]> h) = cell A i j.
Proof.
  intros Hne Ha. unfold load_cell.
  by rewrite lookup_total_insert_ne, (lookup_total_correct _ _ _ Ha).
Qed.

Lemma copy_row_shape A i js N :
  same_shape (foldl (λ N j, set_cell N i j (cell A i j)) N js) N.
Proof.
  revert N. induction js as [|j js IH]; intros N; simpl; [by split|].
  eapply same_shape_trans; [apply IH|apply set_cell_shape].
Qed.

Lemma init_copy_row (h : store) a l A i js N :
  a ≠ l → h !! a = Some A →
  foldl (λ h j, store_cell l i j (load_cell a i j h) h) (<[l := N]> h) js
  = <[l := foldl (λ N j, set_cell N i j (cell A i j)) N js]> h.
Proof.
  intros Hne Ha. revert N. induction js as [|j js IH]; intros N; simpl; [done|].
  by rewrite (load_cell_insert_ne h a l A), store_cell_insert, IH.
Qed.

Lemma init_copy_rows (h : store) a l A rows N :
  a ≠ l → h !! a = Some A → getCols N = getCols A →
  foldl (λ h i,
      foldl (λ h j, store_cell l i j (load_cell a i j h) h)
        h (seq 0 (getCols (h !!! l))))
    (<[l := N]> h) rows
  = <[l := foldl (λ N i,
            foldl (λ N j, set_cell N i j (cell A i j)) N (seq 0 (getCols A)))
          N rows]> h.
Proof.
  intros Hne Ha. revert N.
  induction rows as [|i rows IH]; intros N HN; simpl; [done|].
  rewrite lookup_total_insert_eq, HN.
  rewrite (init_copy_row h a l A) by done.
  rewrite IH; [done|]. rewrite <- HN. apply copy_row_shape.
Qed.

Lemma init_copy_cells_spec (h : store) arg0 self A N :
  _core arg0 ≠ _core self → h !! _core arg0 = Some A → same_shape N A →
  init_copy_cells arg0 self (<[_core self := N]> h)
  = <[_core self := copy_cells A N]> h.
Proof.
  intros Hne Ha [Hr Hc]. unfold init_copy_cells, copy_cells.
  rewrite lookup_total_insert_eq, Hr.
  by apply init_copy_rows.
Qed.

(** The copy constructor: a new object at an unused address, whose core
    is a copy of the argument's; the store is otherwise as before. *)
Lemma init_copy_spec (h : store) a A :
  h !! _core a = Some A → wf A →
  let b := mkIntegerMatrix (fresh (dom h)) in
  __init__ (ArgMatrix a) ArgNone h = (Ok b, <[_core b := A]> h)
  ∧ h !! _core b = None ∧ _core b ≠ _core a.
Proof.
  intros Ha HA b.
  assert (h !! _core b = None) as Hb.
  { apply not_elem_of_dom. apply is_fresh. }
  assert (_core b ≠ _core a) as Hne by congruence.
  split_and!; [|done..].
  unfold __init__, alloc. rewrite Ha. fold b.
  change (fresh (dom h)) with (_core b).
  rewrite (init_copy_cells_spec h a b A) by done.
  by rewrite copy_cells_new.
Qed.

(** An assignment through one object leaves the core of an object with
    another core alone. *)
Lemma setitem_frame (h : store) self other k value r h' :
  _core other ≠ _core self →
  setitem self k value h = (r, h') → h' !! _core other = h !! _core other.
Proof.
  intros Hne. unfold setitem.
  destruct (h !! _core self) as [M|]; [|by intros [= <- <-]].
  destruct (__setitem__ k value M) as [r' M']. intros [= <- <-].
  by rewrite lookup_insert_ne.
Qed.

(** C8: [IntegerMatrix(A)] builds a matrix equal to [A], of the same shape
    and entries, on a core of its own: an assignment to an entry of the
    copy leaves [A] as it was, and an assignment to an entry of [A] leaves
    the copy as it was. *)
Theorem copy_independent (h : store) a A :
  h !! _core a = Some A → wf A →
  ∃ b h',
    __init__ (ArgMatrix a) ArgNone h = (Ok b, h')
    ∧ _core b ≠ _core a
    ∧ h' !! _core a = Some A ∧ h' !! _core b = Some A
    ∧ equal b a h' = Ok true
    ∧ (∀ k value r h'', setitem b k value h' = (r, h'') →
         h'' !! _core a = Some A
         ∧ ∀ k', getitem a k' h'' = getitem a k' h')
    ∧ (∀ k value r h'', setitem a k value h' = (r, h'') →
         h'' !! _core b = Some A
         ∧ ∀ k', getitem b k' h'' = getitem b k' h').
Proof.
  intros Ha HA.
  destruct (init_copy_spec h a A Ha HA) as (Hinit & Hfresh & Hne).
  set (b := mkIntegerMatrix (fresh (dom h))) in *.
  set (h' := <[_core b := A]> h) in *.
  assert (h' !! _core a = Some A) as Ha'.
  { unfold h'. by rewrite lookup_insert_ne. }
  assert (h' !! _core b = Some A) as Hb'.
  { unfold h'. by rewrite lookup_insert_eq. }
  exists b, h'. split_and!; try done.
  - unfold equal. rewrite Ha', Hb'. apply richcmp_refl.
  - intros k value r h'' Hset.
    pose proof (setitem_frame h' b a k value r h'' (not_eq_sym Hne) Hset) as Hfr.
    split; [congruence|]. intros k'. unfold getitem. by rewrite Hfr.
  - intros k value r h'' Hset.
    pose proof (setitem_frame h' a b k value r h'' Hne Hset) as Hfr.
    split; [congruence|]. intros k'. unfold getitem. by rewrite Hfr.
Qed.

Lemma copy_independent_witness :
  doc_store !! _core doc_obj = Some doc_M ∧ wf doc_M
  ∧ ∃ b h',
      __init__ (ArgMatrix doc_obj) ArgNone doc_store = (Ok b, h')
      ∧ _core b ≠ _core doc_obj
      ∧ h' !! _core doc_obj = Some doc_M ∧ h' !! _core b = Some doc_M
      ∧ equal b doc_obj h' = Ok true
      ∧ (∀ k value r h'', setitem b k value h' = (r, h'') →
           h'' !! _core doc_obj = Some doc_M
           ∧ ∀ k', getitem doc_obj k' h'' = getitem doc_obj k' h')
      ∧ (∀ k value r h'', setitem doc_obj k value h' = (r, h'') →
           h'' !! _core b = Some doc_M
           ∧ ∀ k', getitem b k' h'' = getitem b k' h').
Proof.
  assert (doc_store !! _core doc_obj = Some doc_M) as Ha by reflexivity.
  assert (wf doc_M) as HM by wf_ground.
  split; [exact Ha|]. split; [exact HM|].
  exact (copy_independent doc_store doc_obj doc_M Ha HM).
Defined.

(** ** Counters *)

Lemma wrap_in_range z :
  (CInt.INT_MIN ≤ z ≤ CInt.INT_MAX)%Z → CInt.wrap z = z.
Proof.
  unfold CInt.wrap, CInt.INT_MIN, CInt.INT_MAX. intros Hz.
  rewrite Z.mod_small; lia.
Qed.

Lemma incr_of_nat n :
  (Z.of_nat n < CInt.INT_MAX)%Z → CInt.incr (Z.of_nat n) = Z.of_nat (S n).
Proof.
  intros Hn. unfold CInt.incr. rewrite wrap_in_range; [lia|].
  unfold CInt.INT_MIN. lia.
Qed.

Lemma count_items_length xs :
  (Z.of_nat (length xs) ≤ CInt.INT_MAX)%Z →
  count_items xs = Z.of_nat (length xs).
Proof.
  unfold count_items. induction xs as [|x xs IH] using rev_ind; [done|].
  rewrite length_app; simpl. intros Hlen.
  rewrite foldl_snoc, IH by lia. rewrite incr_of_nat by lia. f_equal; lia.
Qed.

(** ** Sub-matrices *)

Lemma submatrix_cell_ok self k c row q A :
  wf self → wf A → q < getCols A →
  valid_index row (nrows self) → valid_index c (ncols self) →
  submatrix_cell self (Z.of_nat k) c (row, Z.of_nat q, A)
  = (Ok tt,
     (normalize row (nrows self), Z.of_nat (S q),
      set_cell A k q
        (cell self (Z.to_nat (normalize row (nrows self)))
           (Z.to_nat (normalize c (ncols self)))))).
Proof.
  intros Hself HA Hq Hrow Hc.
  destruct Hself as (_ & _ & _ & Hcols). destruct HA as (_ & _ & _ & HcA).
  unfold submatrix_cell, lift.
  rewrite (of_py_valid c (ncols self)) by done.
  rewrite preprocess_indices_valid by done.
  rewrite incr_of_nat by lia. by rewrite !Nat2Z.id.
Qed.

Lemma submatrix_cols self k cs :
  wf self → Forall (λ c, valid_index c (ncols self)) cs →
  ∀ q row A,
    wf A → q + length cs ≤ getCols A → valid_index row (nrows self) →
    ∃ row' A',
      for_each (submatrix_cell self (Z.of_nat k)) cs (row, Z.of_nat q, A)
      = (Ok tt, (row', Z.of_nat (q + length cs), A'))
      ∧ wf A' ∧ same_shape A' A
      ∧ (∀ p c, cs !! p = Some c →
           k < getRows A →
           cell A' k (q + p)
           = cell self (Z.to_nat (normalize row (nrows self)))
               (Z.to_nat (normalize c (ncols self))))
      ∧ (∀ i' j', ¬ (i' = k ∧ q ≤ j' < q + length cs) →
           cell A' i' j' = cell A i' j').
Proof.
  intros Hself Hcs. induction Hcs as [|c cs Hc Hcs IH]; intros q row A HA Hq Hrow.
  - exists row, A. simpl. rewrite Nat.add_0_r.
    split_and!; [done|done|apply same_shape_refl|by intros ? ? [=]|done].
  - simpl in Hq. rewrite for_each_cons.
    rewrite submatrix_cell_ok by (done || lia).
    set (nrow := normalize row (nrows self)).
    set (v := cell self _ _).
    destruct (IH (S q) nrow (set_cell A k q v)) as
      (row' & A' & Hrun & Hwf & Hsh & Hin & Hout).
    { by apply wf_set_cell. }
    { simpl; lia. }
    { pose proof (normalize_valid _ _ Hrow). unfold valid_index, nrow. lia. }
    exists row', A'. split_and!.
    + rewrite Hrun. do 3 f_equal. simpl. lia.
    + done.
    + eapply same_shape_trans; [done|apply set_cell_shape].
    + intros [|p] c' Hp Hk; simpl in Hp.
      * simplify_eq. rewrite Nat.add_0_r, Hout by lia.
        by apply cell_set_cell_eq; [|lia..].
      * replace (q + S p) with (S q + p) by lia.
        rewrite (Hin p c' Hp Hk). unfold nrow.
        by rewrite normalize_idemp.
    + intros i' j' Hnot. rewrite Hout by (simpl in *; lia).
      apply cell_set_cell_ne. intros [= -> ->]. simpl in *. lia.
Qed.

Lemma submatrix_rows self cols rs :
  wf self →
  Forall (λ c, valid_index c (ncols self)) cols →
  Forall (λ r, valid_index r (nrows self)) rs →
  ∀ k A,
    wf A → k + length rs ≤ getRows A → length cols ≤ getCols A →
    ∃ A',
      for_each (submatrix_row self cols) rs (Z.of_nat k, A)
      = (Ok tt, (Z.of_nat (k + length rs), A'))
      ∧ wf A' ∧ same_shape A' A
      ∧ (∀ p r j c, rs !! p = Some r → cols !! j = Some c →
           cell A' (k + p) j
           = cell self (Z.to_nat (normalize r (nrows self)))
               (Z.to_nat (normalize c (ncols self))))
      ∧ (∀ i' j', ¬ (k ≤ i' < k + length rs ∧ j' < length cols) →
           cell A' i' j' = cell A i' j').
Proof.
  intros Hself Hcols Hrs.
  induction Hrs as [|r rs Hr Hrs IH]; intros k A HA Hk Hlen.
  - exists A. simpl. rewrite Nat.add_0_r.
    split_and!; [done|done|apply same_shape_refl|by intros ? ? ? ? [=]|done].
  - simpl in Hk. rewrite for_each_cons.
    destruct (submatrix_cols self k cols Hself Hcols 0 r A HA)
      as (row' & A1 & Hrun & Hwf1 & Hsh1 & Hin1 & Hout1); [simpl; lia|done|].
    change (Z.of_nat 0) with 0%Z in Hrun. simpl in Hin1, Hout1.
    assert (submatrix_row self cols r (Z.of_nat k, A)
            = (Ok tt, (Z.of_nat (S k), A1))) as ->.
    { unfold submatrix_row, lift.
      pose proof Hself as (_ & _ & Hrows & _).
      rewrite (of_py_valid r (nrows self)) by done.
      rewrite Hrun. rewrite incr_of_nat; [done|].
      destruct HA as (_ & _ & HrA & _). lia. }
    destruct Hsh1 as [Hr1 Hc1].
    destruct (IH (S k) A1) as (A' & Hrun' & Hwf & Hsh & Hin & Hout);
      [done|lia|lia|].
    exists A'. split_and!.
    + rewrite Hrun'. do 3 f_equal. simpl. lia.
    + done.
    + by eapply same_shape_trans.
    + intros [|p] r' j c Hp Hj; simpl in Hp.
      * simplify_eq. rewrite Nat.add_0_r, Hout by lia.
        apply (Hin1 j c Hj). lia.
      * replace (k + S p) with (S k + p) by lia. by eapply Hin.
    + intros i' j' Hnot. rewrite Hout by (simpl in *; lia).
      apply Hout1. simpl in *. lia.
Qed.

(** C9: [submatrix(rows, cols)] with explicit lists of valid indices, in
    any order and with repetitions, has as many rows as [rows] and as many
    columns as [cols], and its entry [(i, j)] is [A[rows[i], cols[j]]]. *)
Theorem submatrix_explicit self rows cols :
  wf self →
  Forall (λ r, valid_index r (nrows self)) rows →
  Forall (λ c, valid_index c (ncols self)) cols →
  (Z.of_nat (length rows) ≤ CInt.INT_MAX)%Z →
  (Z.of_nat (length cols) ≤ CInt.INT_MAX)%Z →
  ∃ R,
    submatrix self (Iterable rows) (Iterable cols) = Ok R
    ∧ wf R ∧ getRows R = length rows ∧ getCols R = length cols
    ∧ ∀ i j r c, rows !! i = Some r → cols !! j = Some c →
        ∃ v, __getitem__ R (KeyTuple (Z.of_nat i) (Z.of_nat j))
             = Ok (ItemEntry v)
          ∧ __getitem__ self (KeyTuple r c) = Ok (ItemEntry v).
Proof.
  intros Hself Hrows Hcols Hm Hn.
  destruct (submatrix_rows self cols rows Hself Hcols Hrows 0
              (new_ZZ_mat (length rows) (length cols)))
    as (R & Hrun & HR & [Hr Hc] & Hin & _);
    [by apply wf_new_ZZ_mat|simpl; lia|simpl; lia|].
  simpl in Hr, Hc, Hin. change (Z.of_nat 0) with 0%Z in Hrun.
  exists R. split_and!; try done.
  - unfold submatrix. rewrite !count_items_length by done.
    rewrite of_shape_ok by done. simpl. by rewrite Hrun.
  - intros i j r c Hi Hj. eexists. split; [|].
    + pose proof (lookup_lt_Some _ _ _ Hi). pose proof (lookup_lt_Some _ _ _ Hj).
      rewrite getitem_entry; [|done|unfold valid_index, nrows, ncols; lia..].
      unfold normalize, nrows, ncols.
      rewrite !(proj2 (Z.ltb_ge _ _)) by lia. rewrite !Nat2Z.id.
      rewrite (Hin i r j c Hi Hj). reflexivity.
    + apply getitem_entry; [done|..].
      * by eapply Forall_lookup_1 in Hrows.
      * by eapply Forall_lookup_1 in Hcols.
Qed.

Lemma submatrix_explicit_witness :
  wf ex_A
  ∧ Forall (λ r, valid_index r (nrows ex_A)) [1; 0; -1; 1]%Z
  ∧ Forall (λ c, valid_index c (ncols ex_A)) [2; 2; 0]%Z
  ∧ (Z.of_nat (length [1; 0; -1; 1]%Z) ≤ CInt.INT_MAX)%Z
  ∧ (Z.of_nat (length [2; 2; 0]%Z) ≤ CInt.INT_MAX)%Z
  ∧ ∃ R,
      submatrix ex_A (Iterable [1; 0; -1; 1]%Z) (Iterable [2; 2; 0]%Z) = Ok R
      ∧ wf R ∧ getRows R = 4 ∧ getCols R = 3
      ∧ ∀ i j r c, [1; 0; -1; 1]%Z !! i = Some r → [2; 2; 0]%Z !! j = Some c →
          ∃ v, __getitem__ R (KeyTuple (Z.of_nat i) (Z.of_nat j))
               = Ok (ItemEntry v)
            ∧ __getitem__ ex_A (KeyTuple r c) = Ok (ItemEntry v).
Proof.
  assert (wf ex_A) as HA by wf_ground.
  assert (Forall (λ r, valid_index r (nrows ex_A)) [1; 0; -1; 1]%Z) as Hr
    by (repeat constructor; valid_ground).
  assert (Forall (λ c, valid_index c (ncols ex_A)) [2; 2; 0]%Z) as Hc
    by (repeat constructor; valid_ground).
  assert (Z.of_nat (length [1; 0; -1; 1]%Z) ≤ CInt.INT_MAX)%Z as Hm
    by (unfold CInt.INT_MAX; simpl; lia).
  assert (Z.of_nat (length [2; 2; 0]%Z) ≤ CInt.INT_MAX)%Z as Hn
    by (unfold CInt.INT_MAX; simpl; lia).
  split_and!; [exact HA|exact Hr|exact Hc|exact Hm|exact Hn|].
  exact (submatrix_explicit ex_A _ _ HA Hr Hc Hm Hn).
Defined.

(** ** Modular reduction *)

Lemma mpz_cmp_pos a b : (Gmp.mpz_cmp a b >? 0)%Z = (a >? b)%Z.
Proof. unfold Gmp.mpz_cmp, Z.gtb. by destruct (a ?= b)%Z. Qed.

(** With a modulus other than zero the body of the loops never fails. *)
Lemma mod_cell_nonzero q sr sc er ec i j A :
  q ≠ 0%Z →
  mod_cell q (Gmp.mpz_fdiv_q_ui q 2) sr sc er ec i j A
  = (Ok tt,
     if selected sr sc er ec i
     then set_cell A i j (reduced q (cell A i j)) else A).
Proof.
  intros Hq. unfold mod_cell. fold (selected sr sc er ec i).
  destruct (selected sr sc er ec i); [|done].
  unfold Gmp.mpz_mod. rewrite (proj2 (Z.eqb_neq q 0)) by done.
  by rewrite mpz_cmp_pos.
Qed.

Lemma mod_loops_nonzero q sr sc er ec A :
  q ≠ 0%Z → wf A →
  ∃ A',
    for_each (λ i,
      for_each (mod_cell q (Gmp.mpz_fdiv_q_ui q 2) sr sc er ec i)
        (seq 0 (getCols A)))
      (seq 0 (getRows A)) A
    = (Ok tt, A')
    ∧ wf A' ∧ same_shape A' A
    ∧ ∀ i j, cell A' i j
        = if decide (i < getRows A ∧ j < getCols A)
          then (if selected sr sc er ec i then reduced q (cell A i j)
                else cell A i j)
          else cell A i j.
Proof.
  intros Hq HA.
  set (g := λ (i j : nat) (A : ZZ_mat),
         if selected sr sc er ec i
         then set_cell A i j (reduced q (cell A i j)) else A).
  eexists. split.
  - apply (for_each_total _
      (λ i M, foldl (λ N j, g i j N) M (seq 0 (getCols A)))).
    intros i M. apply for_each_total. intros j N. by apply mod_cell_nonzero.
  - apply (rows_loop_spec
             (λ i j v, if selected sr sc er ec i then reduced q v else v) g);
      try done; unfold g.
    + intros i j M HM. destruct (selected sr sc er ec i); [|done].
      by apply wf_set_cell.
    + intros i j M. destruct (selected sr sc er ec i); by split.
    + intros i j M i' j' HM Hi Hj. destruct (selected sr sc er ec i).
      * by apply cell_set_cell.
      * case_decide as Hd; [|done]. by destruct Hd as [-> ->].
Qed.

(** [self.mod(q, ...)] for a modulus other than zero and valid bounds: the
    rows [i] with [start_row <= i < stop_row] and [start_col <= i <
    stop_col] are reduced, in all their columns. *)
Lemma mod_range_nonzero A q start_row start_col stop_row stop_col :
  wf A → q ≠ 0%Z →
  valid_index start_row (nrows A) → valid_index start_col (ncols A) →
  valid_index stop_row (nrows A + 1) → valid_index stop_col (ncols A + 1) →
  ∃ A',
    mod_ (PyInt q) start_row start_col stop_row stop_col A = (Ok tt, A')
    ∧ wf A' ∧ same_shape A' A
    ∧ ∀ i j, cell A' i j
        = if decide (i < getRows A ∧ j < getCols A)
          then (if selected (normalize start_row (nrows A))
                     (normalize start_col (ncols A))
                     (normalize stop_row (nrows A + 1))
                     (normalize stop_col (ncols A + 1)) i
                then reduced q (cell A i j) else cell A i j)
          else cell A i j.
Proof.
  intros HA Hq Hsr Hsc Her Hec.
  destruct (mod_loops_nonzero q (normalize start_row (nrows A))
              (normalize start_col (ncols A))
              (normalize stop_row (nrows A + 1))
              (normalize stop_col (ncols A + 1)) A Hq HA)
    as (A' & Hrun & Hwf & Hsh & Hcell).
  exists A'. split_and!; try done.
  unfold mod_, lift. rewrite !preprocess_indices_valid by done.
  simpl. exact Hrun.
Qed.

Lemma preprocess_default_start A :
  0 < getRows A → 0 < getCols A →
  preprocess_indices 0 0 (nrows A) (ncols A) = Ok (0%Z, 0%Z).
Proof.
  intros Hr Hc. unfold nrows, ncols.
  rewrite preprocess_indices_valid by (unfold valid_index; lia). done.
Qed.

Lemma preprocess_default_stop A :
  preprocess_indices (-1) (-1) (nrows A + 1) (ncols A + 1)
  = Ok (nrows A, ncols A).
Proof.
  unfold nrows, ncols.
  rewrite preprocess_indices_valid by (unfold valid_index; lia).
  unfold normalize; simpl. do 2 f_equal; lia.
Qed.

Lemma selected_default A i :
  selected 0 0 (nrows A) (ncols A) i
  = bool_decide (i < getRows A ∧ i < getCols A).
Proof.
  unfold selected, nrows, ncols.
  rewrite !(proj2 (Z.leb_le 0 (Z.of_nat i))) by lia. simpl.
  rewrite andb_true_r.
  destruct (Z.ltb_spec (Z.of_nat i) (Z.of_nat (getRows A)));
    destruct (Z.ltb_spec (Z.of_nat i) (Z.of_nat (getCols A))); simpl;
    symmetry; (apply bool_decide_eq_true_2 || apply bool_decide_eq_false_2);
    lia.
Qed.

(** [self.mod(q)] for a modulus other than zero, on a matrix that is not
    empty: it reduces the rows whose index is also a column index. *)
Lemma mod_default_nonzero A q :
  wf A → 0 < getRows A → 0 < getCols A → q ≠ 0%Z →
  ∃ A',
    mod_default (PyInt q) A = (Ok tt, A')
    ∧ wf A' ∧ same_shape A' A
    ∧ ∀ i j, cell A' i j
        = if decide (i < getRows A ∧ j < getCols A ∧ i < getCols A)
          then reduced q (cell A i j) else cell A i j.
Proof.
  intros HA Hr Hc Hq.
  destruct (mod_loops_nonzero q 0 0 (nrows A) (ncols A) A Hq HA)
    as (A' & Hrun & Hwf & Hsh & Hcell).
  exists A'. split_and!; try done.
  - unfold mod_default, mod_, lift.
    rewrite preprocess_default_start, preprocess_default_stop by done.
    simpl. exact Hrun.
  - intros i j. rewrite Hcell, selected_default.
    repeat case_decide; try done; try case_bool_decide; try done; lia.
Qed.

Lemma reduced_negative q v : (q < 0)%Z → reduced q v = (v `mod` (- q) - q)%Z.
Proof.
  intros Hq. unfold reduced. rewrite Z.abs_neq by lia.
  pose proof (Z.mod_pos_bound v (- q)) as Hmod.
  assert (q `div` 2 < 0)%Z by (apply Z.div_lt_upper_bound; lia).
  destruct (Z.gtb_spec (v `mod` (- q)) (q `div` 2)); lia.
Qed.

Lemma reduced_positive q v : (0 < q)%Z → reduced q v = centered q v.
Proof. intros Hq. unfold reduced, centered. by rewrite Z.abs_eq by lia. Qed.

(** The centred representative lies in the interval (-q/2, q/2]. *)
Lemma centered_range q v : (0 < q)%Z → (- q < 2 * centered q v ≤ q)%Z.
Proof.
  intros Hq. unfold centered.
  pose proof (Z.mod_pos_bound v q Hq) as Hmod.
  pose proof (Z.div_mod q 2) as Hdiv.
  pose proof (Z.mod_pos_bound q 2) as Hmod2.
  destruct (Z.gtb_spec (v `mod` q) (q `div` 2)); lia.
Qed.

Lemma centered_idemp q v :
  (0 < q)%Z → centered q (centered q v) = centered q v.
Proof.
  intros Hq. unfold centered at 2 3.
  pose proof (Z.mod_pos_bound v q Hq) as Hmod.
  destruct (Z.gtb_spec (v `mod` q) (q `div` 2)) as [Hgt|Hle].
  - unfold centered.
    replace ((v `mod` q - q) `mod` q)%Z with (v `mod` q)%Z.
    + by rewrite (proj2 (Z.gtb_gt _ _)) by lia.
    + replace (v `mod` q - q)%Z with (v `mod` q + (-1) * q)%Z by lia.
      rewrite Z_mod_plus_full. by rewrite Z.mod_mod by lia.
  - unfold centered. rewrite Z.mod_mod by lia.
    destruct (Z.gtb_spec (v `mod` q) (q `div` 2)); [lia|done].
Qed.

(** What does hold of [self.mod(q)] for a positive modulus, on a matrix
    that is not empty: a second application changes nothing, and the
    entries of the rows whose index is below the number of columns are
    centred representatives. *)
Lemma mod_default_positive A q :
  wf A → 0 < getRows A → 0 < getCols A → (0 < q)%Z →
  ∃ A',
    mod_default (PyInt q) A = (Ok tt, A')
    ∧ mod_default (PyInt q) A' = (Ok tt, A')
    ∧ ∀ i j, i < getRows A → j < getCols A → i < getCols A →
        cell A' i j = centered q (cell A i j)
        ∧ (- q < 2 * cell A' i j ≤ q)%Z.
Proof.
  intros HA Hr Hc Hq.
  destruct (mod_default_nonzero A q HA Hr Hc) as (A' & Hrun & Hwf & Hsh & Hcell);
    [lia|].
  destruct Hsh as [Hrs Hcs].
  destruct (mod_default_nonzero A' q Hwf) as (A'' & Hrun' & Hwf' & Hsh' & Hcell');
    [lia..|].
  exists A'. split_and!; [done| |].
  - rewrite Hrun'. f_equal. apply ZZ_mat_eq; [done..|].
    intros i j Hi Hj. rewrite Hcell', Hcell, Hrs, Hcs.
    case_decide; [|done].
    by rewrite !reduced_positive, centered_idemp.
  - intros i j Hi Hj Hij. rewrite Hcell, decide_True by done.
    rewrite reduced_positive by done. split; [done|by apply centered_range].
Qed.

(** With the modulus zero the first reduction is a division by zero. *)
Lemma mod_default_zero A :
  0 < getRows A → 0 < getCols A →
  mod_default (PyInt 0) A = (Abort SIGFPE, A).
Proof.
  intros Hr Hc. unfold mod_default, mod_, lift.
  rewrite preprocess_default_start, preprocess_default_stop by done. simpl.
  pose proof (selected_default A 0) as Hsel.
  rewrite bool_decide_eq_true_2 in Hsel by done.
  destruct (getRows A) as [|r]; [lia|]. destruct (getCols A) as [|c]; [lia|].
  simpl seq. rewrite for_each_cons, for_each_cons.
  unfold mod_cell. fold (selected 0 0 (nrows A) (ncols A) 0). by rewrite Hsel.
Qed.

(** C5, as the code has it: [mod] does not check its modulus.  On a matrix
    with at least one row and one column, [self.mod(q)] raises nothing for
    [q <= 0].  For a negative [q] it returns, the shape is unchanged and
    every entry [v] is left as it is or replaced by [v mod |q| + |q|]; and
    [self % q] returns that matrix.  For [q = 0] the first reduction
    divides by zero inside GMP: the process is terminated, no exception
    reaches the caller, and no entry has been written. *)
Theorem mod_modulus_unchecked A q :
  wf A → 0 < getRows A → 0 < getCols A → (q ≤ 0)%Z →
  ¬ is_Raise (mod_default (PyInt q) A).1
  ∧ ¬ is_Raise (__mod__ A (PyInt q))
  ∧ ((q < 0)%Z →
     ∃ A',
       mod_default (PyInt q) A = (Ok tt, A')
       ∧ __mod__ A (PyInt q) = Ok A'
       ∧ same_shape A' A
       ∧ ∀ i j, cell A' i j = cell A i j
                ∨ cell A' i j = (cell A i j `mod` Z.abs q + Z.abs q)%Z)
  ∧ (q = 0%Z →
     mod_default (PyInt q) A = (Abort SIGFPE, A)
     ∧ __mod__ A (PyInt q) = Abort SIGFPE).
Proof.
  intros HA Hr Hc Hq.
  assert ((q < 0)%Z →
     ∃ A',
       mod_default (PyInt q) A = (Ok tt, A')
       ∧ __mod__ A (PyInt q) = Ok A'
       ∧ same_shape A' A
       ∧ ∀ i j, cell A' i j = cell A i j
                ∨ cell A' i j = (cell A i j `mod` Z.abs q + Z.abs q)%Z)
    as Hneg.
  { intros Hlt.
    destruct (mod_default_nonzero A q HA Hr Hc) as (A' & Hrun & _ & Hsh & Hcell);
      [lia|].
    exists A'. split_and!; try done.
    - unfold __mod__. rewrite copy_ok by done. simpl. by rewrite Hrun.
    - intros i j. rewrite Hcell. case_decide; [right|by left].
      rewrite reduced_negative by done. rewrite Z.abs_neq by lia. lia. }
  assert (q = 0%Z →
     mod_default (PyInt q) A = (Abort SIGFPE, A)
     ∧ __mod__ A (PyInt q) = Abort SIGFPE) as Hzero.
  { intros ->. split; [by apply mod_default_zero|].
    unfold __mod__. rewrite copy_ok by done. simpl.
    by rewrite mod_default_zero. }
  split_and!; try done.
  - intros [e He]. destruct (decide (q = 0%Z)) as [H0|H0].
    + destruct (Hzero H0) as [Hrun _]. by rewrite Hrun in He.
    + destruct Hneg as (A' & Hrun & _); [lia|]. by rewrite Hrun in He.
  - intros [e He]. destruct (decide (q = 0%Z)) as [H0|H0].
    + destruct (Hzero H0) as [_ Hrun]. by rewrite Hrun in He.
    + destruct Hneg as (A' & _ & Hrun & _); [lia|]. by rewrite Hrun in He.
Qed.

Lemma mod_modulus_unchecked_witness :
  wf doc_M ∧ 0 < getRows doc_M ∧ 0 < getCols doc_M ∧ (-10 ≤ 0)%Z
  ∧ ¬ is_Raise (mod_default (PyInt (-10)) doc_M).1
  ∧ ¬ is_Raise (__mod__ doc_M (PyInt (-10)))
  ∧ ((-10 < 0)%Z →
     ∃ A',
       mod_default (PyInt (-10)) doc_M = (Ok tt, A')
       ∧ __mod__ doc_M (PyInt (-10)) = Ok A'
       ∧ same_shape A' doc_M
       ∧ ∀ i j, cell A' i j = cell doc_M i j
                ∨ cell A' i j
                  = (cell doc_M i j `mod` Z.abs (-10) + Z.abs (-10))%Z)
  ∧ ((-10 = 0)%Z →
     mod_default (PyInt (-10)) doc_M = (Abort SIGFPE, doc_M)
     ∧ __mod__ doc_M (PyInt (-10)) = Abort SIGFPE).
Proof.
  assert (wf doc_M) as HM by wf_ground.
  assert (0 < getRows doc_M) as Hr by (simpl; lia).
  assert (0 < getCols doc_M) as Hc by (simpl; lia).
  assert (-10 ≤ 0)%Z as Hq by lia.
  split_and!; [exact HM|exact Hr|exact Hc|exact Hq|..];
    apply (mod_modulus_unchecked doc_M (-10) HM Hr Hc Hq).
Defined.

(** C5 as stated does not hold: a negative modulus is accepted, and the
    reduction goes through. *)
Lemma mod_negative_modulus_accepted :
  mod_default (PyInt (-10)) doc_M
  = (Ok tt, mkZZ_mat 2 2 [[11; 12]; [13; 10]]%Z)
  ∧ __mod__ doc_M (PyInt (-10)) = Ok (mkZZ_mat 2 2 [[11; 12]; [13; 10]]%Z)
  ∧ ¬ is_Raise (mod_default (PyInt (-10)) doc_M).1.
Proof.
  split_and!; [reflexivity|reflexivity|]. by intros [e He].
Qed.

(** C1, on the code: with [start_col = 1] on the matrix of the docstring,
    the entry [(0, 1)], which lies in the requested columns, is not
    reduced, and the entry [(1, 0)], which lies outside them, is: the
    column bounds are compared with the row index. *)
Theorem mod_column_range_tests_row_index :
  mod_ (PyInt 10) 0 1 (-1) (-1) doc_M
  = (Ok tt, mkZZ_mat 2 2 [[1001; 102]; [3; 0]]%Z)
  ∧ cell doc_M 0 1 = 102%Z ∧ cell doc_M 1 0 = 13%Z
  ∧ centered 10 102 = 2%Z.
Proof. by split_and!. Qed.

(** C2, on the code: on a matrix with more rows than columns
    [self.mod(10)] leaves the last row as it is, and its entry [7] is not
    in the interval (-5, 5]. *)
Theorem mod_default_skips_rows :
  mod_default (PyInt 10) tall_M = (Ok tt, mkZZ_mat 2 1 [[-3]; [7]]%Z)
  ∧ ¬ (- 10 < 2 * 7 ≤ 10)%Z
  ∧ centered 10 7 = (-3)%Z.
Proof. split_and!; [done|lia|done]. Qed.

(** ** Randomisation *)


(** The Ajtai generator runs under the name ["atjai"]. *)
Lemma randomize_atjai {rng float : Type}
    (py_int : pyobj → outcome Z) (py_float : pyobj → outcome float)
    gen_intrel gen_simdioph gen_uniform gen_ntrulike gen_ntrulike2 gen_ajtai
    (kwds : gmap string pyobj) (st : ZZ_mat * rng) (alpha : float) :
  kwds_get kwds "alpha" ≫= py_float = Ok alpha →
  randomize py_int py_float gen_intrel gen_simdioph gen_uniform gen_ntrulike
    gen_ntrulike2 gen_ajtai "atjai" kwds st
  = (Ok tt, gen_ajtai alpha st.1 st.2).
Proof. intros Halpha. unfold randomize; simpl. by rewrite Halpha. Qed.

(** C4, on the code: the name ["ajtai"] is not among those [randomize]
    compares with; whatever the keyword arguments, the call raises
    [ValueError] and the matrix and the random state are as before. *)
Theorem randomize_ajtai_unknown {rng float : Type}
    (py_int : pyobj → outcome Z) (py_float : pyobj → outcome float)
    gen_intrel gen_simdioph gen_uniform gen_ntrulike gen_ntrulike2 gen_ajtai
    (kwds : gmap string pyobj) (st : ZZ_mat * rng) :
  randomize py_int py_float gen_intrel gen_simdioph gen_uniform gen_ntrulike
    gen_ntrulike2 gen_ajtai "ajtai" kwds st
  = (Raise ValueError, st).
Proof. done. Qed.


(** * Further properties of the methods *)

(** ** Comparison: what [==] and [!=] decide *)

Lemma richcmp_row_true A B i js :
  richcmp_row A B i js true = true ↔ ∀ j, j ∈ js → cell A i j = cell B i j.
Proof.
  induction js as [|j js IH]; simpl.
  - split; [|done]. intros _ j Hj. by apply elem_of_nil in Hj.
  - destruct (Z.eqb_spec (cell A i j) (cell B i j)) as [Heq|Hne]; simpl.
    + rewrite IH. split.
      * intros H j' [->|Hj']%elem_of_cons; auto.
      * intros H j' Hj'. apply H. by right.
    + split; [done|]. intros H. destruct Hne. apply H. by left.
Qed.

Lemma richcmp_rows_false A B rows : richcmp_rows A B rows false = false.
Proof. by destruct rows. Qed.

Lemma richcmp_rows_true A B rows :
  richcmp_rows A B rows true = true
  ↔ ∀ i j, i ∈ rows → j < getCols A → cell A i j = cell B i j.
Proof.
  induction rows as [|i rows IH]; simpl.
  - split; [|done]. intros _ i j Hi. by apply elem_of_nil in Hi.
  - destruct (richcmp_row A B i (seq 0 (getCols A)) true) eqn:Hrow.
    + rewrite IH. pose proof (proj1 (richcmp_row_true _ _ _ _) Hrow) as Hcells.
      split.
      * intros H i' j [->|Hi']%elem_of_cons Hj; [|by apply H].
        apply Hcells. apply elem_of_seq. lia.
      * intros H i' j Hi' Hj. apply H; [by right|done].
    + rewrite richcmp_rows_false. split; [done|]. intros H.
      assert (richcmp_row A B i (seq 0 (getCols A)) true = true) as Ht;
        [|congruence].
      apply richcmp_row_true. intros j Hj%elem_of_seq.
      apply H; [by left|lia].
Qed.

(** X1: on two matrices [==] returns [True] exactly when they have the same
    shape and the same entries, [!=] returns the opposite, and every other
    comparison raises [NotImplementedError]. *)
Theorem richcmp_decides A B :
  wf A → wf B →
  ∃ b, __richcmp__ A B 2 = Ok b
    ∧ __richcmp__ A B 3 = Ok (negb b)
    ∧ (b = true ↔ A = B)
    ∧ ∀ op, op ≠ 2%Z → op ≠ 3%Z →
        __richcmp__ A B op = Raise NotImplementedError.
Proof.
  intros HA HB. unfold __richcmp__. simpl.
  eexists. split_and!; [reflexivity|reflexivity| |].
  - unfold nrows, ncols.
    destruct (Z.eqb_spec (Z.of_nat (getRows A)) (Z.of_nat (getRows B)))
      as [Hr|Hr]; simpl.
    + destruct (Z.eqb_spec (Z.of_nat (getCols A)) (Z.of_nat (getCols B)))
        as [Hc|Hc]; simpl.
      * rewrite richcmp_rows_true. split.
        -- intros H. apply ZZ_mat_eq; [done|done|split; lia|].
           intros i j Hi Hj. apply H; [|done]. apply elem_of_seq. lia.
        -- by intros <-.
      * rewrite richcmp_rows_false. split; [done|]. intros <-. lia.
    + rewrite richcmp_rows_false. split; [done|]. intros <-. lia.
  - intros op H2 H3. by rewrite !bool_decide_eq_false_2.
Qed.

Lemma richcmp_decides_witness :
  wf doc_A ∧ wf doc_B
  ∧ ∃ b, __richcmp__ doc_A doc_B 2 = Ok b
      ∧ __richcmp__ doc_A doc_B 3 = Ok (negb b)
      ∧ (b = true ↔ doc_A = doc_B)
      ∧ ∀ op, op ≠ 2%Z → op ≠ 3%Z →
          __richcmp__ doc_A doc_B op = Raise NotImplementedError.
Proof.
  assert (wf doc_A) as HA by wf_ground.
  assert (wf doc_B) as HB by wf_ground.
  split; [exact HA|]. split; [exact HB|].
  exact (richcmp_decides doc_A doc_B HA HB).
Defined.

(** ** Assignment: what it leaves alone *)

(** X2: [A[i, j] = v] at a valid index keeps the shape and the invariant of
    the matrix, and every entry at another position reads as before. *)
Theorem setitem_entry_frame A i j v :
  wf A → valid_index i (nrows A) → valid_index j (ncols A) →
  ∃ A', __setitem__ (KeyTuple i j) (PyInt v) A = (Ok tt, A')
    ∧ wf A' ∧ same_shape A' A
    ∧ ∀ i' j', valid_index i' (nrows A) → valid_index j' (ncols A) →
        (normalize i' (nrows A), normalize j' (ncols A))
        ≠ (normalize i (nrows A), normalize j (ncols A)) →
        __getitem__ A' (KeyTuple i' j') = __getitem__ A (KeyTuple i' j').
Proof.
  intros HA Hi Hj.
  pose proof (normalize_valid _ _ Hi) as Hni.
  pose proof (normalize_valid _ _ Hj) as Hnj.
  eexists. split; [by rewrite setitem_entry by done|].
  split_and!; [by apply wf_set_cell|apply set_cell_shape|].
  intros i' j' Hi' Hj' Hne.
  pose proof (normalize_valid _ _ Hi') as Hni'.
  pose proof (normalize_valid _ _ Hj') as Hnj'.
  rewrite (getitem_entry A) by done.
  rewrite getitem_entry; [|by apply wf_set_cell|done..].
  unfold nrows, ncols in *; simpl. rewrite cell_set_cell_ne; [done|].
  intros [= Hr Hc]. apply Hne. f_equal; lia.
Qed.

Lemma setitem_entry_frame_witness :
  wf doc_M ∧ valid_index (-1) (nrows doc_M) ∧ valid_index 0 (ncols doc_M)
  ∧ ∃ A', __setitem__ (KeyTuple (-1) 0) (PyInt 5) doc_M = (Ok tt, A')
      ∧ wf A' ∧ same_shape A' doc_M
      ∧ ∀ i' j', valid_index i' (nrows doc_M) → valid_index j' (ncols doc_M) →
          (normalize i' (nrows doc_M), normalize j' (ncols doc_M))
          ≠ (normalize (-1) (nrows doc_M), normalize 0 (ncols doc_M)) →
          __getitem__ A' (KeyTuple i' j') = __getitem__ doc_M (KeyTuple i' j').
Proof.
  assert (wf doc_M) as HM by wf_ground.
  assert (valid_index (-1) (nrows doc_M)) as Hi by valid_ground.
  assert (valid_index 0 (ncols doc_M)) as Hj by valid_ground.
  split_and!; [exact HM|exact Hi|exact Hj|].
  exact (setitem_entry_frame doc_M (-1) 0 5 HM Hi Hj).
Defined.

(** ** [__copy__] *)

(** X3: [__copy__] returns a matrix with the shape and the entries of the
    original, which [==] confirms. *)
Theorem copy_is_equal A :
  wf A →
  ∃ B, __copy__ A = Ok B ∧ B = A ∧ __richcmp__ A B 2 = Ok true.
Proof.
  intros HA. exists A. split_and!; [by apply copy_ok|done|apply richcmp_refl].
Qed.

Lemma copy_is_equal_witness :
  wf ex_C
  ∧ ∃ B, __copy__ ex_C = Ok B ∧ B = ex_C ∧ __richcmp__ ex_C B 2 = Ok true.
Proof.
  assert (wf ex_C) as HC by wf_ground.
  split; [exact HC|]. exact (copy_is_equal ex_C HC).
Defined.

(** ** Sub-matrices and slices *)

(** The cells of a sub-matrix given by lists of valid indices. *)
Lemma submatrix_cells self rows cols :
  wf self →
  Forall (λ r, valid_index r (nrows self)) rows →
  Forall (λ c, valid_index c (ncols self)) cols →
  (Z.of_nat (length rows) ≤ CInt.INT_MAX)%Z →
  (Z.of_nat (length cols) ≤ CInt.INT_MAX)%Z →
  ∃ R,
    submatrix self (Iterable rows) (Iterable cols) = Ok R
    ∧ wf R ∧ getRows R = length rows ∧ getCols R = length cols
    ∧ ∀ i j r c, rows !! i = Some r → cols !! j = Some c →
        cell R i j
        = cell self (Z.to_nat (normalize r (nrows self)))
            (Z.to_nat (normalize c (ncols self))).
Proof.
  intros Hself Hrows Hcols Hm Hn.
  destruct (submatrix_rows self cols rows Hself Hcols Hrows 0
              (new_ZZ_mat (length rows) (length cols)))
    as (R & Hrun & HR & [Hr Hc] & Hin & _);
    [by apply wf_new_ZZ_mat|simpl; lia|simpl; lia|].
  simpl in Hr, Hc, Hin. change (Z.of_nat 0) with 0%Z in Hrun.
  exists R. split_and!; try done.
  - unfold submatrix. rewrite !count_items_length by done.
    rewrite of_shape_ok by done. simpl. by rewrite Hrun.
  - intros i j r c Hi Hj. by apply Hin.
Qed.

Lemma slice_indices_bounds start stop len :
  (0 ≤ len)%Z →
  (0 ≤ (slice_indices start stop len).1 ≤ len)%Z
  ∧ (0 ≤ (slice_indices start stop len).2 ≤ len)%Z.
Proof.
  intros Hlen. unfold slice_indices; simpl.
  split; [destruct start as [x|]|destruct stop as [x|]]; simpl; try lia;
    destruct (Z.ltb_spec x 0); lia.
Qed.

(** X4: the row slice [A[start:stop]] is a new matrix made of the rows
    from [start] to [stop], both clamped as Python clamps them, in all
    their columns; it is empty when the bounds cross. *)
Theorem getitem_slice A start stop :
  wf A →
  let lo := (slice_indices start stop (nrows A)).1 in
  let hi := (slice_indices start stop (nrows A)).2 in
  ∃ R,
    __getitem__ A (KeySlice start stop) = Ok (ItemMatrix R)
    ∧ wf R
    ∧ getRows R = Z.to_nat (hi - lo) ∧ getCols R = getCols A
    ∧ ∀ i j, i < getRows R → j < getCols A →
        cell R i j = cell A (Z.to_nat lo + i) j.
Proof.
  intros HA lo hi. pose proof HA as (_ & _ & Hrmax & Hcmax).
  destruct (slice_indices_bounds start stop (nrows A)) as [Hlo Hhi];
    [unfold nrows; lia|].
  fold lo in Hlo. fold hi in Hhi. unfold nrows in Hlo, Hhi.
  destruct (submatrix_cells A (seqZ lo (hi - lo)) (seqZ 0 (ncols A)))
    as (R & Hsub & HR & Hr & Hc & Hcell); try done.
  - apply Forall_forall. intros r [Hr1 Hr2]%elem_of_seqZ.
    unfold valid_index, nrows. lia.
  - apply Forall_forall. intros c [Hc1 Hc2]%elem_of_seqZ.
    unfold valid_index, ncols in *. lia.
  - rewrite length_seqZ. lia.
  - rewrite length_seqZ. unfold ncols. lia.
  - rewrite length_seqZ in Hr, Hc. unfold ncols in Hc.
    rewrite Nat2Z.id in Hc.
    exists R. split_and!; try done.
    + unfold __getitem__.
      destruct (slice_indices start stop (nrows A)) as [lo' hi'] eqn:Hs.
      simpl in lo, hi. subst lo hi. by rewrite Hsub.
    + intros i j Hi Hj.
      rewrite (Hcell i j (lo + Z.of_nat i)%Z (Z.of_nat j)).
      * unfold normalize, nrows, ncols.
        rewrite !(proj2 (Z.ltb_ge _ _)) by lia.
        f_equal; lia.
      * apply lookup_seqZ. lia.
      * apply lookup_seqZ. unfold ncols. lia.
Qed.

Lemma getitem_slice_witness :
  wf ex_B
  ∧ ∃ R,
      __getitem__ ex_B (KeySlice (Some (-2)%Z) None) = Ok (ItemMatrix R)
      ∧ wf R
      ∧ getRows R
        = Z.to_nat ((slice_indices (Some (-2)%Z) None (nrows ex_B)).2
                    - (slice_indices (Some (-2)%Z) None (nrows ex_B)).1)
      ∧ getCols R = getCols ex_B
      ∧ ∀ i j, i < getRows R → j < getCols ex_B →
          cell R i j
          = cell ex_B
              (Z.to_nat (slice_indices (Some (-2)%Z) None (nrows ex_B)).1 + i)
              j.
Proof.
  assert (wf ex_B) as HB by wf_ground.
  split; [exact HB|]. exact (getitem_slice ex_B (Some (-2)%Z) None HB).
Defined.

(** X5: selecting every row and every column in order, with
    [submatrix(range(nrows), range(ncols))] or with the slice [A[:]], gives
    a matrix equal to [A]. *)
Theorem submatrix_all_is_copy A :
  wf A →
  submatrix A (Iterable (seqZ 0 (nrows A))) (Iterable (seqZ 0 (ncols A)))
  = Ok A
  ∧ __getitem__ A (KeySlice None None) = Ok (ItemMatrix A).
Proof.
  intros HA. pose proof HA as (_ & _ & Hrmax & Hcmax).
  assert (submatrix A (Iterable (seqZ 0 (nrows A)))
            (Iterable (seqZ 0 (ncols A))) = Ok A) as Hsub.
  { destruct (submatrix_cells A (seqZ 0 (nrows A)) (seqZ 0 (ncols A)))
      as (R & Hsub & HR & Hr & Hc & Hcell); try done.
    - apply Forall_forall. intros r [Hr1 Hr2]%elem_of_seqZ.
      unfold valid_index. lia.
    - apply Forall_forall. intros c [Hc1 Hc2]%elem_of_seqZ.
      unfold valid_index. lia.
    - rewrite length_seqZ. unfold nrows. lia.
    - rewrite length_seqZ. unfold ncols. lia.
    - rewrite length_seqZ in Hr, Hc. unfold nrows, ncols in Hr, Hc.
      rewrite Nat2Z.id in Hr, Hc.
      rewrite Hsub. f_equal. apply ZZ_mat_eq; [done|done|by split|].
      intros i j Hi Hj.
      rewrite (Hcell i j (Z.of_nat i) (Z.of_nat j)).
      + unfold normalize. rewrite !(proj2 (Z.ltb_ge _ _)) by lia.
        by rewrite !Nat2Z.id.
      + apply lookup_seqZ. unfold nrows. lia.
      + apply lookup_seqZ. unfold ncols. lia. }
  split; [done|]. unfold __getitem__.
  change (slice_indices None None (nrows A)) with (0%Z, nrows A).
  cbv beta iota. rewrite Z.sub_0_r. by rewrite Hsub.
Qed.

Lemma submatrix_all_is_copy_witness :
  wf ex_A
  ∧ submatrix ex_A (Iterable (seqZ 0 (nrows ex_A)))
      (Iterable (seqZ 0 (ncols ex_A))) = Ok ex_A
  ∧ __getitem__ ex_A (KeySlice None None) = Ok (ItemMatrix ex_A).
Proof.
  assert (wf ex_A) as HA by wf_ground.
  split; [exact HA|]. exact (submatrix_all_is_copy ex_A HA).
Defined.

(** ** Modular reduction: what every call keeps *)

Lemma for_each_invariant {X S : Type} (P : S → Prop)
    (body : X → S → outcome unit * S) xs s r s' :
  (∀ x s r s', x ∈ xs → P s → body x s = (r, s') → P s') →
  P s → for_each body xs s = (r, s') → P s'.
Proof.
  revert s. induction xs as [|x xs IH]; intros s Hbody Hs Hrun.
  - by simplify_eq/=.
  - rewrite for_each_cons in Hrun.
    destruct (body x s) as [[[]| |] s1] eqn:Hx.
    + apply (IH s1); [|by eapply Hbody; [left|..]|done].
      intros x' s2 r' s2' Hx'. apply Hbody. by right.
    + simplify_eq. eapply Hbody; [by left|done..].
    + simplify_eq. eapply Hbody; [by left|done..].
Qed.

Lemma mod_cell_zero q2 sr sc er ec i j A :
  mod_cell 0 q2 sr sc er ec i j A
  = (if selected sr sc er ec i then Abort SIGFPE else Ok tt, A).
Proof.
  unfold mod_cell. fold (selected sr sc er ec i).
  by destruct (selected sr sc er ec i).
Qed.

Lemma reduced_congruent q v : q ≠ 0%Z → (q | reduced q v - v)%Z.
Proof.
  intros Hq. unfold reduced.
  pose proof (Z.div_mod v (Z.abs q)) as Hdiv.
  set (d := (v `div` Z.abs q)%Z) in *. set (t := (v `mod` Z.abs q)%Z) in *.
  destruct (Z.abs_spec q) as [[_ Ha]|[_ Ha]]; rewrite Ha in Hdiv;
    destruct (t >? q `div` 2)%Z.
  - exists (- d - 1)%Z. lia.
  - exists (- d)%Z. lia.
  - exists (d - 1)%Z. lia.
  - exists d. lia.
Qed.

(** X6: whatever its arguments and however it ends, [mod] keeps the shape
    of the matrix and leaves every entry in its residue class modulo [q]. *)
Theorem mod_keeps_residues A q start_row start_col stop_row stop_col r A' :
  wf A →
  mod_ (PyInt q) start_row start_col stop_row stop_col A = (r, A') →
  wf A' ∧ same_shape A' A
  ∧ ∀ i j, (q | cell A' i j - cell A i j)%Z.
Proof.
  intros HA. unfold mod_, lift.
  assert (wf A ∧ same_shape A A ∧ ∀ i j, (q | cell A i j - cell A i j)%Z)
    as Hinit.
  { split_and!; [done|apply same_shape_refl|].
    intros i j. rewrite Z.sub_diag. apply Z.divide_0_r. }
  destruct (preprocess_indices start_row start_col _ _) as [[sr sc]| |];
    [|by intros [= <- <-]..].
  destruct (preprocess_indices stop_row stop_col _ _) as [[er ec]| |];
    [|by intros [= <- <-]..].
  simpl.
  apply (for_each_invariant
    (λ M, wf M ∧ same_shape M A ∧ ∀ i j, (q | cell M i j - cell A i j)%Z));
    [|done].
  intros i M r1 M1 Hi%elem_of_seq HM.
  apply (for_each_invariant
    (λ M, wf M ∧ same_shape M A ∧ ∀ i j, (q | cell M i j - cell A i j)%Z));
    [|done].
  clear M r1 M1 HM. intros j M r1 M1 Hj%elem_of_seq (HM & [Hr Hc] & Hres).
  destruct (decide (q = 0%Z)) as [->|Hq].
  - rewrite mod_cell_zero. intros [= <- <-]. by split_and!.
  - rewrite mod_cell_nonzero by done. intros [= <- <-].
    destruct (selected sr sc er ec i); [|by split_and!].
    split_and!; [by apply wf_set_cell|by split|].
    intros i' j'. rewrite cell_set_cell by (done || lia).
    case_decide as Hd; [|done]. destruct Hd as [-> ->].
    replace (reduced q (cell M i j) - cell A i j)%Z
      with ((reduced q (cell M i j) - cell M i j)
            + (cell M i j - cell A i j))%Z by lia.
    apply Z.divide_add_r; [by apply reduced_congruent|done].
Qed.

Lemma mod_keeps_residues_witness :
  wf doc_M
  ∧ mod_ (PyInt 10) 1 0 (-1) (-1) doc_M
    = (Ok tt, mkZZ_mat 2 2 [[1001; 102]; [3; 0]]%Z)
  ∧ wf (mkZZ_mat 2 2 [[1001; 102]; [3; 0]]%Z)
  ∧ same_shape (mkZZ_mat 2 2 [[1001; 102]; [3; 0]]%Z) doc_M
  ∧ ∀ i j,
      (10 | cell (mkZZ_mat 2 2 [[1001; 102]; [3; 0]]%Z) i j
            - cell doc_M i j)%Z.
Proof.
  assert (wf doc_M) as HM by wf_ground.
  assert (mod_ (PyInt 10) 1 0 (-1) (-1) doc_M
          = (Ok tt, mkZZ_mat 2 2 [[1001; 102]; [3; 0]]%Z)) as Hrun
    by reflexivity.
  split; [exact HM|]. split; [exact Hrun|].
  exact (mod_keeps_residues doc_M 10 1 0 (-1) (-1) _ _ HM Hrun).
Defined.

(** X7: on a matrix that is not empty and has no more rows than columns,
    [self.mod(q)] with a positive [q] replaces every entry by its centred
    representative, in the interval (-q/2, q/2]; a second call changes
    nothing, and [self % q] returns the same matrix. *)
Theorem mod_wide_centres A q :
  wf A → 0 < getRows A → getRows A ≤ getCols A → (0 < q)%Z →
  ∃ A',
    mod_default (PyInt q) A = (Ok tt, A')
    ∧ __mod__ A (PyInt q) = Ok A'
    ∧ mod_default (PyInt q) A' = (Ok tt, A')
    ∧ ∀ i j, i < getRows A → j < getCols A →
        cell A' i j = centered q (cell A i j)
        ∧ (- q < 2 * cell A' i j ≤ q)%Z.
Proof.
  intros HA Hr Hrc Hq.
  destruct (mod_default_positive A q HA Hr) as (A' & Hrun & Hidem & Hcell);
    [lia|done|].
  exists A'. split_and!; try done.
  - unfold __mod__. rewrite copy_ok by done. simpl. by rewrite Hrun.
  - intros i j Hi Hj. apply Hcell; lia.
Qed.

Lemma mod_wide_centres_witness :
  wf ex_A ∧ 0 < getRows ex_A ∧ getRows ex_A ≤ getCols ex_A ∧ (0 < 4)%Z
  ∧ ∃ A',
      mod_default (PyInt 4) ex_A = (Ok tt, A')
      ∧ __mod__ ex_A (PyInt 4) = Ok A'
      ∧ mod_default (PyInt 4) A' = (Ok tt, A')
      ∧ ∀ i j, i < getRows ex_A → j < getCols ex_A →
          cell A' i j = centered 4 (cell ex_A i j)
          ∧ (- 4 < 2 * cell A' i j ≤ 4)%Z.
Proof.
  assert (wf ex_A) as HA by wf_ground.
  assert (0 < getRows ex_A) as Hr by (simpl; lia).
  assert (getRows ex_A ≤ getCols ex_A) as Hrc by (simpl; lia).
  assert (0 < 4)%Z as Hq by lia.
  split_and!; [exact HA|exact Hr|exact Hrc|exact Hq|].
  exact (mod_wide_centres ex_A 4 HA Hr Hrc Hq).
Defined.

(** ** Randomisation: failures *)



(** ** Row references *)

Lemma normalize_nonneg i m : (0 ≤ i)%Z → normalize i m = i.
Proof. intros Hi. unfold normalize. by rewrite (proj2 (Z.ltb_ge _ _)). Qed.

(** X9: the row reference [r = A[i]] reads the entries of [A] itself:
    [r[j]] is [A[i, j]], and after a later assignment [A[i, j] = v] the
    same reference returns [v]. *)
Theorem row_reference_reads_matrix (h : store) A M i j v :
  h !! _core A = Some M → wf M →
  valid_index i (nrows M) → valid_index j (ncols M) →
  ∃ r x h',
    getitem_row A i h = Ok r
    ∧ IntegerMatrixRow.__getitem__ r j h = Ok x
    ∧ getitem A (KeyTuple i j) h = Ok (ItemEntry x)
    ∧ setitem A (KeyTuple i j) (PyInt v) h = (Ok tt, h')
    ∧ IntegerMatrixRow.__getitem__ r j h' = Ok (PyInt v).
Proof.
  intros HA HM Hi Hj. pose proof HM as (_ & _ & Hrmax & Hcmax).
  pose proof (normalize_valid _ _ Hi) as Hni.
  pose proof (normalize_valid _ _ Hj) as Hnj.
  set (ni := normalize i (nrows M)) in *.
  set (nj := normalize j (ncols M)) in *.
  exists (IntegerMatrixRow.mk A ni). eexists. eexists.
  assert (getitem_row A i h = Ok (IntegerMatrixRow.mk A ni)) as Hrow.
  { unfold getitem_row, IntegerMatrixRow.__init__. rewrite HA.
    rewrite (of_py_valid i (nrows M)) by done. simpl.
    rewrite preprocess_indices_valid by done. simpl. fold ni.
    rewrite preprocess_indices_valid by (unfold valid_index; lia).
    simpl. by rewrite normalize_nonneg by lia. }
  split_and!; [done| | | |].
  - unfold IntegerMatrixRow.__getitem__; simpl. rewrite HA.
    rewrite (of_py_valid j (ncols M)) by done. simpl.
    rewrite preprocess_indices_valid by done. reflexivity.
  - unfold getitem. rewrite HA. by rewrite getitem_entry.
  - unfold setitem. rewrite HA, setitem_entry by done. reflexivity.
  - unfold IntegerMatrixRow.__getitem__; simpl. rewrite lookup_insert_eq.
    unfold ncols; simpl. fold (ncols M).
    rewrite (of_py_valid j (ncols M)) by done. simpl.
    rewrite preprocess_indices_valid by done. simpl. fold ni nj.
    unfold mpz_get_python. do 2 f_equal.
    unfold nrows, ncols in *. apply cell_set_cell_eq; [done|lia..].
Qed.

Lemma row_reference_reads_matrix_witness :
  doc_store !! _core doc_obj = Some doc_M ∧ wf doc_M
  ∧ valid_index (-1) (nrows doc_M) ∧ valid_index 1 (ncols doc_M)
  ∧ ∃ r x h',
      getitem_row doc_obj (-1) doc_store = Ok r
      ∧ IntegerMatrixRow.__getitem__ r 1 doc_store = Ok x
      ∧ getitem doc_obj (KeyTuple (-1) 1) doc_store = Ok (ItemEntry x)
      ∧ setitem doc_obj (KeyTuple (-1) 1) (PyInt 7) doc_store = (Ok tt, h')
      ∧ IntegerMatrixRow.__getitem__ r 1 h' = Ok (PyInt 7).
Proof.
  assert (doc_store !! _core doc_obj = Some doc_M) as Ha by reflexivity.
  assert (wf doc_M) as HM by wf_ground.
  assert (valid_index (-1) (nrows doc_M)) as Hi by valid_ground.
  assert (valid_index 1 (ncols doc_M)) as Hj by valid_ground.
  split_and!; [exact Ha|exact HM|exact Hi|exact Hj|].
  exact (row_reference_reads_matrix doc_store doc_obj doc_M (-1) 1 7
           Ha HM Hi Hj).
Defined.

(** ** Construction from a shape *)

(** X10: [IntegerMatrix(r, c)] accepts zero for either dimension and
    refuses a negative one with [ValueError]; the object it builds has a
    core at an unused address, every entry of it reads [0], and the cores
    of the other objects are as before. *)
Theorem init_shape (h : store) (r c : Z) :
  ((r < 0 ∨ c < 0)%Z →
   __init__ (ArgInt r) (ArgInt c) h = (Raise ValueError, h))
  ∧ ((0 ≤ r ≤ CInt.INT_MAX)%Z → (0 ≤ c ≤ CInt.INT_MAX)%Z →
     ∃ b h',
       __init__ (ArgInt r) (ArgInt c) h = (Ok b, h')
       ∧ h !! _core b = None
       ∧ (∀ l, l ≠ _core b → h' !! l = h !! l)
       ∧ (∃ M, h' !! _core b = Some M ∧ wf M
               ∧ nrows M = r ∧ ncols M = c)
       ∧ ∀ i j, valid_index i r → valid_index j c →
           getitem b (KeyTuple i j) h' = Ok (ItemEntry (PyInt 0))).
Proof.
  split.
  - intros Hneg. unfold __init__, IntegerMatrix_of_shape.
    destruct (Z.ltb_spec r 0); [done|].
    destruct (Z.ltb_spec c 0); [done|lia].
  - intros Hr Hc.
    set (M := new_ZZ_mat (Z.to_nat r) (Z.to_nat c)).
    assert (wf M) as HM by (apply wf_new_ZZ_mat; lia).
    assert (nrows M = r) as HrM by (unfold nrows; simpl; lia).
    assert (ncols M = c) as HcM by (unfold ncols; simpl; lia).
    exists (mkIntegerMatrix (fresh (dom h))), (<[fresh (dom h) := M]> h).
    assert (h !! fresh (dom h) = None) as Hfresh.
    { apply not_elem_of_dom. apply is_fresh. }
    split_and!; simpl.
    + unfold __init__, IntegerMatrix_of_shape, alloc.
      rewrite !(proj2 (Z.ltb_ge _ _)) by lia.
      rewrite !of_py_in_range by (unfold CInt.INT_MIN; lia). done.
    + done.
    + intros l Hl. by rewrite lookup_insert_ne.
    + exists M. by rewrite lookup_insert_eq.
    + intros i j Hi Hj. unfold getitem. cbn [_core].
      rewrite lookup_insert_eq.
      rewrite getitem_entry by (done || congruence).
      unfold M. by rewrite cell_new_ZZ_mat.
Qed.

Lemma init_shape_witness :
  ∃ b h',
    __init__ (ArgInt 10) (ArgInt 0) doc_store = (Ok b, h')
    ∧ doc_store !! _core b = None
    ∧ (∀ l, l ≠ _core b → h' !! l = doc_store !! l)
    ∧ (∃ M, h' !! _core b = Some M ∧ wf M ∧ nrows M = 10%Z ∧ ncols M = 0%Z)
    ∧ ∀ i j, valid_index i 10 → valid_index j 0 →
        getitem b (KeyTuple i j) h' = Ok (ItemEntry (PyInt 0)).
Proof.
  apply (init_shape doc_store 10 0); unfold CInt.INT_MAX; lia.
Defined.

(** ** Sub-matrices given by a start and a stop *)

Lemma block_cols self i row b n A :
  (Z.of_nat n ≤ CInt.INT_MAX)%Z →
  foldl (λ '(j, A) col,
      (CInt.incr j,
       set_cell A (Z.to_nat i) (Z.to_nat j)
         (cell self (Z.to_nat row) (Z.to_nat col))))
    (0%Z, A) (seqZ (Z.of_nat b) (Z.of_nat n))
  = (Z.of_nat n,
     foldl (λ A j, set_cell A (Z.to_nat i) j (cell self (Z.to_nat row) (b + j)))
       A (seq 0 n)).
Proof.
  induction n as [|n IH]; intros Hn; [done|].
  rewrite seqZ_S, seq_S, !foldl_snoc, IH by lia.
  rewrite incr_of_nat by lia. simpl.
  by rewrite Nat2Z.id, <- Nat2Z.inj_add, Nat2Z.id.
Qed.

Lemma block_rows self a b m n A :
  (Z.of_nat m ≤ CInt.INT_MAX)%Z → (Z.of_nat n ≤ CInt.INT_MAX)%Z →
  submatrix_block self (Z.of_nat a) (Z.of_nat b)
    (Z.of_nat a + Z.of_nat m) (Z.of_nat b + Z.of_nat n) A
  = foldl (λ A i,
      foldl (λ A j, set_cell A i j (cell self (a + i) (b + j))) A (seq 0 n))
      A (seq 0 m).
Proof.
  intros Hm Hn. unfold submatrix_block.
  replace (Z.of_nat a + Z.of_nat m - Z.of_nat a)%Z with (Z.of_nat m) by lia.
  replace (Z.of_nat b + Z.of_nat n - Z.of_nat b)%Z with (Z.of_nat n) by lia.
  assert (∀ k, k ≤ m →
    foldl (λ '(i, A) row,
        (CInt.incr i,
         (foldl (λ '(j, A) col,
              (CInt.incr j,
               set_cell A (Z.to_nat i) (Z.to_nat j)
                 (cell self (Z.to_nat row) (Z.to_nat col))))
            (0%Z, A) (seqZ (Z.of_nat b) (Z.of_nat n))).2))
      (0%Z, A) (seqZ (Z.of_nat a) (Z.of_nat k))
    = (Z.of_nat k,
       foldl (λ A i,
         foldl (λ A j, set_cell A i j (cell self (a + i) (b + j)))
           A (seq 0 n))
         A (seq 0 k))) as Hrows.
  { induction k as [|k IH]; intros Hk; [done|].
    rewrite seqZ_S, seq_S, !foldl_snoc, IH by lia.
    rewrite incr_of_nat by lia. simpl.
    rewrite block_cols by done. simpl.
    by rewrite Nat2Z.id, <- Nat2Z.inj_add, Nat2Z.id. }
  by rewrite Hrows.
Qed.

Lemma stop_index_returned c n :
  (0 < n)%Z →
  (if (c <? 0)%Z then py_mod c n else Returned c) = Returned (stop_index c n).
Proof.
  intros Hn. unfold stop_index, py_mod.
  destruct (c <? 0)%Z; [|done]. by rewrite (proj2 (Z.eqb_neq n 0)) by lia.
Qed.

Lemma submatrix_range_cells self a b c d :
  wf self → a < getRows self → b < getCols self →
  (Z.of_nat a ≤ stop_index c (nrows self) ≤ nrows self)%Z →
  (Z.of_nat b ≤ stop_index d (ncols self) ≤ ncols self)%Z →
  ∃ R,
    submatrix_range self a b c d = Returned R
    ∧ wf R
    ∧ Z.of_nat (getRows R) = (stop_index c (nrows self) - Z.of_nat a)%Z
    ∧ Z.of_nat (getCols R) = (stop_index d (ncols self) - Z.of_nat b)%Z
    ∧ ∀ i j, i < getRows R → j < getCols R →
        cell R i j = cell self (a + i) (b + j).
Proof.
  intros Hself Ha Hb Hc Hd. pose proof Hself as (_ & _ & Hrmax & Hcmax).
  set (c' := stop_index c (nrows self)) in *.
  set (d' := stop_index d (ncols self)) in *.
  unfold nrows, ncols in Hc, Hd.
  set (m := Z.to_nat (c' - Z.of_nat a)). set (n := Z.to_nat (d' - Z.of_nat b)).
  assert (c' = Z.of_nat a + Z.of_nat m)%Z as Hc' by lia.
  assert (d' = Z.of_nat b + Z.of_nat n)%Z as Hd' by lia.
  destruct (rows_loop_spec (λ i j _, cell self (a + i) (b + j))
              (λ i j A, set_cell A i j (cell self (a + i) (b + j)))
              ltac:(intros; by apply wf_set_cell)
              ltac:(intros; apply set_cell_shape)
              ltac:(intros; by apply cell_set_cell)
              m n (new_ZZ_mat m n))
    as (HR & [Hr Hcs] & Hcell);
    [apply wf_new_ZZ_mat; lia|done..|].
  eexists. split_and!.
  - unfold submatrix_range.
    rewrite !stop_index_returned by (unfold nrows, ncols; lia).
    fold c' d'. simpl.
    rewrite preprocess_indices_valid
      by (unfold valid_index, nrows, ncols; lia).
    rewrite preprocess_indices_valid
      by (unfold valid_index, nrows, ncols; lia).
    simpl. rewrite !normalize_nonneg by lia.
    rewrite !(proj2 (Z.ltb_ge _ _)) by lia.
    rewrite !of_py_in_range by (unfold CInt.INT_MIN; lia). simpl.
    rewrite Hc', Hd'.
    replace (Z.of_nat a + Z.of_nat m - Z.of_nat a)%Z with (Z.of_nat m) by lia.
    replace (Z.of_nat b + Z.of_nat n - Z.of_nat b)%Z with (Z.of_nat n) by lia.
    rewrite of_shape_ok by lia. simpl.
    rewrite block_rows by lia. reflexivity.
  - done.
  - rewrite Hr. simpl. lia.
  - rewrite Hcs. simpl. lia.
  - intros i j Hi Hj. rewrite Hr in Hi. rewrite Hcs in Hj. simpl in Hi, Hj.
    by rewrite Hcell, decide_True.
Qed.

(** X11: [submatrix(a, b, c, d)] returns the block of the rows from [a]
    up to the stop [c] and of the columns from [b] up to the stop [d], as
    a new matrix.  A negative stop is reduced modulo the number of rows
    or columns, so that [-1] stops before the last row or column.  The
    block from [(0, 0)] to [(nrows, ncols)] is equal to the matrix. *)
Theorem submatrix_range_block self a b c d :
  wf self → a < getRows self → b < getCols self →
  (Z.of_nat a ≤ stop_index c (nrows self) ≤ nrows self)%Z →
  (Z.of_nat b ≤ stop_index d (ncols self) ≤ ncols self)%Z →
  ∃ R,
    submatrix_range self a b c d = Returned R
    ∧ wf R
    ∧ Z.of_nat (getRows R) = (stop_index c (nrows self) - Z.of_nat a)%Z
    ∧ Z.of_nat (getCols R) = (stop_index d (ncols self) - Z.of_nat b)%Z
    ∧ (∀ i j, i < getRows R → j < getCols R →
         cell R i j = cell self (a + i) (b + j))
    ∧ (a = 0 → b = 0 → c = nrows self → d = ncols self → R = self).
Proof.
  intros Hself Ha Hb Hc Hd.
  destruct (submatrix_range_cells self a b c d Hself Ha Hb Hc Hd)
    as (R & Hrun & HR & Hr & Hcs & Hcell).
  exists R. split_and!; try done.
  intros -> -> -> ->. unfold stop_index, nrows, ncols in Hr, Hcs.
  rewrite (proj2 (Z.ltb_ge _ 0)) in Hr by lia.
  rewrite (proj2 (Z.ltb_ge _ 0)) in Hcs by lia.
  apply ZZ_mat_eq; [done|done|split; lia|].
  intros i j Hi Hj. by rewrite Hcell.
Qed.

Lemma submatrix_range_block_witness :
  wf ex_A ∧ 0 < getRows ex_A ∧ 1 < getCols ex_A
  ∧ (Z.of_nat 0 ≤ stop_index (-1) (nrows ex_A) ≤ nrows ex_A)%Z
  ∧ (Z.of_nat 1 ≤ stop_index 3 (ncols ex_A) ≤ ncols ex_A)%Z
  ∧ ∃ R,
      submatrix_range ex_A 0 1 (-1) 3 = Returned R
      ∧ wf R
      ∧ Z.of_nat (getRows R) = (stop_index (-1) (nrows ex_A) - Z.of_nat 0)%Z
      ∧ Z.of_nat (getCols R) = (stop_index 3 (ncols ex_A) - Z.of_nat 1)%Z
      ∧ (∀ i j, i < getRows R → j < getCols R →
           cell R i j = cell ex_A (0 + i) (1 + j))
      ∧ (0 = 0 → 1 = 0 → (-1)%Z = nrows ex_A → 3%Z = ncols ex_A → R = ex_A).
Proof.
  assert (wf ex_A) as HA by wf_ground.
  assert (0 < getRows ex_A) as Ha by (simpl; lia).
  assert (1 < getCols ex_A) as Hb by (simpl; lia).
  assert (Z.of_nat 0 ≤ stop_index (-1) (nrows ex_A) ≤ nrows ex_A)%Z as Hc
    by (vm_compute; split; intros ?; discriminate).
  assert (Z.of_nat 1 ≤ stop_index 3 (ncols ex_A) ≤ ncols ex_A)%Z as Hd
    by (vm_compute; split; intros ?; discriminate).
  refine (conj HA (conj Ha (conj Hb (conj Hc (conj Hd _))))).
  exact (submatrix_range_block ex_A 0 1 (-1) 3 HA Ha Hb Hc Hd).
Defined.





(** ** [apply_transform] *)

Lemma transform_cols B k i c self :
  wf self → k + i < getRows self → c ≤ getCols self →
  let self' :=
    foldl (λ self j, set_cell self (k + i) j (cell B i j)) self (seq 0 c) in
  wf self' ∧ same_shape self' self
  ∧ ∀ i' j', cell self' i' j'
      = if decide (i' = k + i ∧ j' < c) then cell B i j'
        else cell self i' j'.
Proof.
  intros Hself Hi. induction c as [|c IH]; intros Hc; cbv zeta.
  - split_and!; [done|apply same_shape_refl|].
    intros i' j'. case_decide; [lia|done].
  - rewrite seq_S, foldl_snoc; simpl.
    destruct IH as (Hwf & [Hr Hcs] & Hcell); [lia|].
    split_and!; [by apply wf_set_cell|by split|].
    intros i' j'. rewrite cell_set_cell by (done || lia). rewrite Hcell.
    repeat destruct (decide _); first [done | exfalso; lia | by destruct_and!; subst].
Qed.

Lemma transform_cells_spec B k self :
  wf self → k + getRows B ≤ getRows self → getCols B ≤ getCols self →
  wf (transform_cells B k self) ∧ same_shape (transform_cells B k self) self
  ∧ ∀ i j, cell (transform_cells B k self) i j
      = if decide (k ≤ i < k + getRows B ∧ j < getCols B)
        then cell B (i - k) j else cell self i j.
Proof.
  intros Hself Hr Hc. unfold transform_cells.
  induction (getRows B) as [|r IH].
  - split_and!; [done|apply same_shape_refl|].
    intros i j. case_decide; [lia|done].
  - rewrite seq_S, foldl_snoc; simpl.
    destruct IH as (Hwf & [Hrs Hcs] & Hcell); [lia|].
    destruct (transform_cols B k r (getCols B) _ Hwf)
      as (Hwf' & [Hrs' Hcs'] & Hcell'); [lia..|].
    split_and!; [done|split; congruence|].
    intros i j. rewrite Hcell', Hcell.
    repeat destruct (decide _); try done; try (exfalso; lia).
    destruct_and!. subst. f_equal. lia.
Qed.

Lemma wf_identity_mat k :
  (Z.of_nat k ≤ CInt.INT_MAX)%Z → wf (identity_mat k).
Proof.
  intros Hk. repeat split; simpl; try done.
  - by rewrite length_fmap, length_seq.
  - apply Forall_fmap, Forall_forall. intros i _. simpl.
    by rewrite length_fmap, length_seq.
Qed.

Lemma cell_identity_mat k i j :
  i < k → j < k →
  cell (identity_mat k) i j = if decide (i = j) then 1%Z else 0%Z.
Proof.
  intros Hi Hj. unfold cell, identity_mat; simpl.
  rewrite list_lookup_fmap, lookup_seq_lt by done. simpl.
  by rewrite list_lookup_fmap, lookup_seq_lt by done.
Qed.

Lemma sum_upto_unit_l k i (f : nat → Z) :
  i < k →
  sum_upto k (λ t, (if decide (i = t) then 1 else 0) * f t)%Z = f i.
Proof.
  induction k as [|k IH]; intros Hi; [lia|]. simpl.
  destruct (decide (i = k)) as [->|Hne].
  - rewrite (sum_upto_ext _ _ (λ _, 0%Z)), sum_upto_zero; [lia|].
    intros t Ht. rewrite decide_False by lia. lia.
  - rewrite IH by lia. lia.
Qed.

Lemma sum_upto_unit_r k j (f : nat → Z) :
  j < k →
  sum_upto k (λ t, f t * (if decide (t = j) then 1 else 0))%Z = f j.
Proof.
  induction k as [|k IH]; intros Hj; [lia|]. simpl.
  destruct (decide (k = j)) as [->|Hne].
  - rewrite (sum_upto_ext _ _ (λ _, 0%Z)), sum_upto_zero; [lia|].
    intros t Ht. rewrite decide_False by lia. lia.
  - rewrite IH by lia. lia.
Qed.

(** X13: for a square [U] with [k] rows that fits below [start_row],
    [apply_transform(U, start_row)] replaces the rows from [start_row] to
    [start_row + k] by the product of [U] with those rows, entry by entry
    and exactly, and leaves every other row and the shape as they are.
    With the identity for [U] the matrix is left as it is. *)
Theorem apply_transform_rows U start_row self :
  wf self → wf U → getCols U = getRows U →
  start_row < getRows self → start_row + getRows U ≤ getRows self →
  0 < getCols self →
  ∃ self',
    apply_transform U start_row self = (Returned tt, self')
    ∧ wf self' ∧ same_shape self' self
    ∧ (∀ i j, i < getRows self → j < getCols self →
         cell self' i j
         = if decide (start_row ≤ i < start_row + getRows U)
           then sum_upto (getRows U)
                  (λ t, cell U (i - start_row) t
                        * cell self (start_row + t) j)%Z
           else cell self i j)
    ∧ (U = identity_mat (getRows U) → self' = self).
Proof.
  intros Hself HU Hsq Hk Hfit Hc.
  destruct (submatrix_range_cells self start_row 0
              (Z.of_nat start_row + nrows U) (ncols self))
    as (Sub & Hsub & HSwf & HSr & HSc & HScell); [done|done|done|..].
  { unfold stop_index, nrows. rewrite (proj2 (Z.ltb_ge _ 0)) by lia. lia. }
  { unfold stop_index, ncols. rewrite (proj2 (Z.ltb_ge _ 0)) by lia. lia. }
  unfold stop_index, nrows, ncols in HSr, HSc.
  rewrite (proj2 (Z.ltb_ge _ 0)) in HSr by lia.
  rewrite (proj2 (Z.ltb_ge _ 0)) in HSc by lia.
  assert (getRows Sub = getRows U) as HSr' by lia.
  assert (getCols Sub = getCols self) as HSc' by lia.
  destruct (mul_defined U Sub HU HSwf) as (B & HB & HBwf & HBr & HBc & HBcell);
    [congruence|].
  destruct (transform_cells_spec B start_row self Hself)
    as (Hwf & Hsh & Hcell); [lia..|].
  assert (∀ i j, i < getRows self → j < getCols self →
    cell (transform_cells B start_row self) i j
    = if decide (start_row ≤ i < start_row + getRows U)
      then sum_upto (getRows U)
             (λ t, cell U (i - start_row) t * cell self (start_row + t) j)%Z
      else cell self i j) as Hcells.
  { intros i j Hi Hj. rewrite Hcell, HBr, HBc, HSc'.
    destruct (decide (start_row ≤ i < start_row + getRows U)) as [Hin|Hout].
    - rewrite decide_True by lia. rewrite HBcell by lia. rewrite Hsq.
      apply sum_upto_ext. intros t Ht. rewrite HScell by lia.
      by rewrite Nat.add_0_l.
    - by rewrite decide_False by lia. }
  exists (transform_cells B start_row self). split_and!; try done.
  - unfold apply_transform. by rewrite Hsub, HB.
  - intros HI. apply ZZ_mat_eq; [done..|].
    destruct Hsh as [Hrs Hcs]. intros i j Hi Hj.
    rewrite Hcells by lia. case_decide as Hin; [|done].
    rewrite (sum_upto_ext _ _
      (λ t, (if decide ((i - start_row)%nat = t) then 1 else 0)
            * cell self (start_row + t) j)%Z).
    + rewrite sum_upto_unit_l by lia. f_equal. lia.
    + intros t Ht. rewrite HI. simpl.
      by rewrite cell_identity_mat by (simpl; lia).
Qed.

Lemma apply_transform_rows_witness :
  wf ex_S ∧ wf ex_U ∧ getCols ex_U = getRows ex_U
  ∧ 1 < getRows ex_S ∧ 1 + getRows ex_U ≤ getRows ex_S ∧ 0 < getCols ex_S
  ∧ ∃ self',
      apply_transform ex_U 1 ex_S = (Returned tt, self')
      ∧ wf self' ∧ same_shape self' ex_S
      ∧ (∀ i j, i < getRows ex_S → j < getCols ex_S →
           cell self' i j
           = if decide (1 ≤ i < 1 + getRows ex_U)
             then sum_upto (getRows ex_U)
                    (λ t, cell ex_U (i - 1) t * cell ex_S (1 + t) j)%Z
             else cell ex_S i j)
      ∧ (ex_U = identity_mat (getRows ex_U) → self' = ex_S).
Proof.
  assert (wf ex_S) as HS by wf_ground. assert (wf ex_U) as HU by wf_ground.
  assert (getCols ex_U = getRows ex_U) as Hsq by reflexivity.
  assert (1 < getRows ex_S) as Hk by (simpl; lia).
  assert (1 + getRows ex_U ≤ getRows ex_S) as Hfit by (simpl; lia).
  assert (0 < getCols ex_S) as Hc by (simpl; lia).
  refine (conj HS (conj HU (conj Hsq (conj Hk (conj Hfit (conj Hc _)))))).
  exact (apply_transform_rows ex_U 1 ex_S HS HU Hsq Hk Hfit Hc).
Defined.



(** ** Filling from an iterable *)

Lemma for_each_r_cons {X S : Type} (body : X → S → result unit * S) x xs s :
  for_each_r body (x :: xs) s
  = match body x s with
    | (Returned _, s') => for_each_r body xs s'
    | (r, s') => (r, s')
    end.
Proof. done. Qed.

Lemma setitem_at M i j value :
  wf M → i < getRows M → j < getCols M →
  __setitem__ (KeyTuple (Z.of_nat i) (Z.of_nat j)) value M
  = assign_Z_NR_mpz M i j value.
Proof.
  intros HM Hi Hj.
  rewrite setitem_entry by (done || unfold valid_index, nrows, ncols; lia).
  by rewrite !normalize_nonneg, !Nat2Z.id by lia.
Qed.

Lemma set_iterable_cols i cnt :
  ∀ q zs M,
    wf M → i < getRows M → q + cnt ≤ getCols M →
    ∃ M',
      for_each_r (set_iterable_cell i) (seq q cnt) (PyInt <$> zs, M)
      = (if decide (cnt ≤ length zs) then Returned tt
         else Raised StopIteration,
         (PyInt <$> drop cnt zs, M'))
      ∧ wf M' ∧ same_shape M' M
      ∧ ∀ i' j', cell M' i' j'
          = if decide (i' = i ∧ q ≤ j' < q + cnt)
            then default (cell M i' j') (zs !! (j' - q))
            else cell M i' j'.
Proof.
  induction cnt as [|cnt IH]; intros q zs M HM Hi Hq.
  - exists M. cbn [seq for_each_r]. rewrite decide_True by lia.
    rewrite drop_0.
    split_and!; [done|done|apply same_shape_refl|].
    intros i' j'. case_decide; [lia|done].
  - simpl seq. rewrite for_each_r_cons. destruct zs as [|z zs].
    + exists M. simpl. split_and!; [done|done|apply same_shape_refl|].
      intros i' j'. by case_decide.
    + rewrite fmap_cons. unfold set_iterable_cell at 1. cbn [fst snd].
      rewrite setitem_at by (done || lia).
      unfold assign_Z_NR_mpz, assign_mpz. cbn [of_outcome].
      destruct (IH (S q) zs (set_cell M i q z)) as (M' & Hrun & Hwf & Hsh & Hcell);
        [by apply wf_set_cell|done|simpl; lia|].
      exists M'. split_and!.
      * rewrite Hrun. cbn [length drop]. f_equal.
        repeat case_decide; done || lia.
      * done.
      * eapply same_shape_trans; [done|apply set_cell_shape].
      * intros i' j'. rewrite Hcell. rewrite cell_set_cell by (done || lia).
        destruct (decide (i' = i ∧ q ≤ j' < q + S cnt)) as [[-> Hj']|Hout].
        -- destruct (decide (j' = q)) as [->|Hne].
           ++ rewrite decide_False by lia. rewrite decide_True by done.
              by rewrite Nat.sub_diag.
           ++ rewrite decide_True by lia.
              replace (j' - q) with (S (j' - S q)) by lia. simpl.
              by rewrite decide_False by lia.
        -- rewrite decide_False by lia. by rewrite decide_False by lia.
Qed.

Lemma set_iterable_rows n cnt :
  ∀ p zs M,
    wf M → n ≤ getCols M → p + cnt ≤ getRows M →
    ∃ M',
      for_each_r (λ i, for_each_r (set_iterable_cell i) (seq 0 n))
        (seq p cnt) (PyInt <$> zs, M)
      = (if decide (cnt * n ≤ length zs) then Returned tt
         else Raised StopIteration,
         (PyInt <$> drop (cnt * n) zs, M'))
      ∧ wf M' ∧ same_shape M' M
      ∧ ∀ i' j', cell M' i' j'
          = if decide (p ≤ i' < p + cnt ∧ j' < n)
            then default (cell M i' j') (zs !! ((i' - p) * n + j'))
            else cell M i' j'.
Proof.
  induction cnt as [|cnt IH]; intros p zs M HM Hn Hp.
  - exists M. cbn [seq for_each_r]. rewrite decide_True by lia.
    rewrite Nat.mul_0_l, drop_0.
    split_and!; [done|done|apply same_shape_refl|].
    intros i' j'. case_decide; [lia|done].
  - simpl seq. rewrite for_each_r_cons.
    destruct (set_iterable_cols p n 0 zs M HM) as (M1 & Hrun1 & Hwf1 & Hsh1 & Hcell1);
      [lia|simpl; lia|].
    rewrite Hrun1. destruct Hsh1 as [Hr1 Hc1].
    destruct (decide (n ≤ length zs)) as [Hlen|Hlen].
    + destruct (IH (S p) (drop n zs) M1) as (M' & Hrun & Hwf & Hsh & Hcell);
        [done|lia|lia|].
      exists M'. split_and!.
      * rewrite Hrun, length_drop, drop_drop. simpl.
        f_equal. repeat case_decide; done || lia.
      * done.
      * eapply same_shape_trans; [done|by split].
      * intros i' j'. rewrite Hcell, Hcell1, lookup_drop.
        destruct (decide (p ≤ i' < p + S cnt ∧ j' < n)) as [[Hi' Hj']|Hout].
        -- destruct (decide (i' = p)) as [->|Hne].
           ++ rewrite decide_False by lia. rewrite decide_True by lia.
              by rewrite Nat.sub_diag, Nat.sub_0_r.
           ++ rewrite decide_True by lia. rewrite (decide_False (P:=_ ∧ _)) by lia.
              replace (i' - p) with (S (i' - S p)) by lia. simpl.
              by rewrite Nat.add_assoc.
        -- rewrite decide_False by lia. by rewrite decide_False by lia.
    + exists M1. split_and!.
      * f_equal; [|f_equal].
        -- rewrite decide_False; [done|]. simpl. lia.
        -- rewrite !drop_ge; [done|simpl; lia|lia].
      * done.
      * by split.
      * intros i' j'. rewrite Hcell1.
        destruct (decide (p ≤ i' < p + S cnt ∧ j' < n)) as [[Hi' Hj']|Hout].
        -- destruct (decide (i' = p)) as [->|Hne].
           ++ rewrite decide_True by lia.
              by rewrite Nat.sub_diag, Nat.sub_0_r.
           ++ rewrite decide_False by lia.
              replace (i' - p) with (S (i' - S p)) by lia. simpl.
              rewrite lookup_ge_None_2; [done|nia].
        -- by rewrite decide_False by lia.
Qed.

(** X15: [set_iterable] fills the matrix in row-major order: the value of
    rank [i * ncols + j] goes to the entry [(i, j)], and values beyond
    [nrows * ncols] are not used.  With fewer values the call raises
    [StopIteration], the entries it reached hold their values and the
    others are as before. *)
Theorem set_iterable_row_major zs M :
  wf M →
  ∃ M',
    set_iterable (PyInt <$> zs) M
    = (if decide (getRows M * getCols M ≤ length zs) then Returned tt
       else Raised StopIteration, M')
    ∧ wf M' ∧ same_shape M' M
    ∧ ∀ i j, i < getRows M → j < getCols M →
        cell M' i j = default (cell M i j) (zs !! (i * getCols M + j)).
Proof.
  intros HM.
  destruct (set_iterable_rows (getCols M) (getRows M) 0 zs M HM)
    as (M' & Hrun & Hwf & Hsh & Hcell); [done..|].
  exists M'. split_and!; try done.
  - unfold set_iterable. by rewrite Hrun.
  - intros i j Hi Hj. rewrite Hcell, decide_True by lia.
    by rewrite Nat.sub_0_r.
Qed.

Lemma set_iterable_row_major_witness :
  wf doc_M
  ∧ ∃ M',
      set_iterable (PyInt <$> [5; 6; 7]%Z) doc_M
      = (if decide (getRows doc_M * getCols doc_M ≤ length [5; 6; 7]%Z)
         then Returned tt else Raised StopIteration, M')
      ∧ wf M' ∧ same_shape M' doc_M
      ∧ ∀ i j, i < getRows doc_M → j < getCols doc_M →
          cell M' i j
          = default (cell doc_M i j)
              ([5; 6; 7]%Z !! (i * getCols doc_M + j)).
Proof.
  assert (wf doc_M) as HM by wf_ground.
  split; [exact HM|]. exact (set_iterable_row_major [5; 6; 7]%Z doc_M HM).
Defined.

(** X16: [from_iterable(r, c, it)] builds the [r] by [c] matrix whose
    entry [(i, j)] is the value of rank [i * c + j] of [it]; it raises
    [StopIteration] when [it] yields fewer than [r * c] values, and
    [ValueError] when [r] or [c] is negative. *)
Theorem from_iterable_row_major (r c : nat) zs :
  (Z.of_nat r ≤ CInt.INT_MAX)%Z → (Z.of_nat c ≤ CInt.INT_MAX)%Z →
  (r * c ≤ length zs →
   ∃ R,
     from_iterable (Z.of_nat r) (Z.of_nat c) (PyInt <$> zs) = Returned R
     ∧ wf R ∧ getRows R = r ∧ getCols R = c
     ∧ ∀ i j, i < r → j < c → zs !! (i * c + j) = Some (cell R i j))
  ∧ (length zs < r * c →
     from_iterable (Z.of_nat r) (Z.of_nat c) (PyInt <$> zs)
     = Raised StopIteration)
  ∧ ∀ r' c', (r' < 0 ∨ c' < 0)%Z →
      from_iterable r' c' (PyInt <$> zs) = Raised (Builtin ValueError).
Proof.
  intros Hr Hc.
  destruct (set_iterable_rows c r 0 zs (new_ZZ_mat r c))
    as (R & Hrun & Hwf & [Hrs Hcs] & Hcell);
    [by apply wf_new_ZZ_mat|done..|].
  simpl in Hrs, Hcs.
  assert (from_iterable (Z.of_nat r) (Z.of_nat c) (PyInt <$> zs)
          = if decide (r * c ≤ length zs) then Returned R
            else Raised StopIteration) as Hfrom.
  { unfold from_iterable, set_iterable. rewrite of_shape_ok by done. simpl.
    rewrite Hrun. by case_decide. }
  split_and!.
  - intros Hlen. exists R. rewrite decide_True in Hfrom by done.
    split_and!; try done.
    intros i j Hi Hj.
    destruct (lookup_lt_is_Some_2 zs (i * c + j)) as [z Hz]; [nia|].
    rewrite Hcell, decide_True by lia. rewrite Nat.sub_0_r, Hz. done.
  - intros Hlen. by rewrite decide_False in Hfrom by lia.
  - intros r' c' Hneg. unfold from_iterable, IntegerMatrix_of_shape.
    destruct (Z.ltb_spec r' 0); [done|].
    destruct (Z.ltb_spec c' 0); [done|lia].
Qed.

Lemma from_iterable_row_major_witness :
  ∃ R,
    from_iterable (Z.of_nat 2) (Z.of_nat 3) (PyInt <$> [1; 2; 3; 4; 5; 6; 7]%Z)
    = Returned R
    ∧ wf R ∧ getRows R = 2 ∧ getCols R = 3
    ∧ ∀ i j, i < 2 → j < 3 →
        [1; 2; 3; 4; 5; 6; 7]%Z !! (i * 3 + j) = Some (cell R i j).
Proof.
  apply (from_iterable_row_major 2 3 [1; 2; 3; 4; 5; 6; 7]%Z);
    unfold CInt.INT_MAX; simpl; lia.
Defined.

(** ** Nested lists *)

(** A loop whose body succeeds on the states of an invariant is a fold. *)
Lemma for_each_total_on {X S : Type} (P : S → Prop)
    (body : X → S → outcome unit * S) (g : X → S → S) xs s :
  (∀ x s, x ∈ xs → P s → body x s = (Ok tt, g x s) ∧ P (g x s)) →
  P s →
  for_each body xs s = (Ok tt, foldl (λ s x, g x s) s xs)
  ∧ P (foldl (λ s x, g x s) s xs).
Proof.
  revert s. induction xs as [|x xs IH]; intros s Hbody Hs; [done|].
  rewrite for_each_cons.
  destruct (Hbody x s) as [-> Hg]; [by left|done|]. simpl.
  apply IH; [|done]. intros x' s' Hx'. apply Hbody. by right.
Qed.

(** Two nested loops whose first iteration raises. *)
Lemma nested_first_raises {S : Type}
    (body : nat → nat → S → outcome unit * S) m n s e :
  0 < m → 0 < n → body 0 0 s = (Raise e, s) →
  for_each (λ i, for_each (body i) (seq 0 n)) (seq 0 m) s = (Raise e, s).
Proof.
  intros Hm Hn Hbody. destruct m as [|m]; [lia|]. destruct n as [|n]; [lia|].
  simpl seq. rewrite for_each_cons, for_each_cons. by rewrite Hbody.
Qed.

(** Two nested loops without any iteration of the body. *)
Lemma nested_no_iteration {S : Type}
    (body : nat → nat → S → outcome unit * S) m n s :
  m = 0 ∨ n = 0 →
  for_each (λ i, for_each (body i) (seq 0 n)) (seq 0 m) s = (Ok tt, s).
Proof.
  intros [->| ->]; [done|]. simpl.
  induction (seq 0 m) as [|i rows IH]; [done|].
  by rewrite for_each_cons.
Qed.

Lemma set_matrix_lists_cells (zss : list (list Z)) M :
  wf M →
  (∀ i, i < getRows M → ∃ row, zss !! i = Some row ∧ getCols M ≤ length row) →
  ∃ M',
    set_matrix_lists (pylists zss) M = (Ok tt, M')
    ∧ wf M' ∧ same_shape M' M
    ∧ ∀ i j, i < getRows M → j < getCols M →
        lists_entry zss i j = Some (cell M' i j).
Proof.
  intros HM Hrows. unfold set_matrix_lists.
  destruct (decide (0 < getRows M ∧ 0 < getCols M)) as [[Hm Hn]|Hempty].
  - rewrite (nested_first_raises _ _ _ _ TypeError) by done.
    set (v := λ i j : nat, default 0%Z (lists_entry zss i j)).
    assert (∀ i j, i < getRows M → j < getCols M →
              lists_entry zss i j = Some (v i j)) as Hv.
    { intros i j Hi Hj. destruct (Hrows i Hi) as (row & Hrow & Hlen).
      destruct (lookup_lt_is_Some_2 row j) as [z Hz]; [lia|].
      unfold v, lists_entry. rewrite Hrow; simpl. by rewrite Hz. }
    destruct (for_each_total_on (λ N, wf N ∧ same_shape N M)
      (λ i,
        for_each (λ j,
          lift (row ← list_getitem (pylists zss) i; list_getitem row j)
            (__setitem__ (KeyTuple (Z.of_nat i) (Z.of_nat j))))
          (seq 0 (getCols M)))
      (λ i N, foldl (λ N j, set_cell N i j (v i j)) N (seq 0 (getCols M)))
      (seq 0 (getRows M)) M) as [Hrun _].
    { intros i N Hi%elem_of_seq HN.
      apply (for_each_total_on (λ N, wf N ∧ same_shape N M)); [|done].
      intros j N' Hj%elem_of_seq [HN' [Hr Hc]].
      split; [|split; [by apply wf_set_cell|by split]].
      destruct (Hrows i) as (row & Hrow & Hlen); [lia|].
      destruct (lookup_lt_is_Some_2 row j) as [z Hz]; [lia|].
      assert ((row ← list_getitem (pylists zss) i; list_getitem row j)
              = Ok (PyInt z)) as ->.
      { unfold list_getitem, pylists. rewrite list_lookup_fmap, Hrow. simpl.
        by rewrite list_lookup_fmap, Hz. }
      unfold lift. rewrite setitem_at by (done || lia).
      unfold assign_Z_NR_mpz, assign_mpz, v, lists_entry. rewrite Hrow. simpl.
      by rewrite Hz. }
    { split; [done|apply same_shape_refl]. }
    rewrite Hrun.
    destruct (rows_loop_spec (λ i j _, v i j) (λ i j N, set_cell N i j (v i j))
                ltac:(intros; by apply wf_set_cell)
                ltac:(intros; apply set_cell_shape)
                ltac:(intros; by apply cell_set_cell)
                (getRows M) (getCols M) M HM)
      as (Hwf & Hsh & Hcell); [done..|].
    eexists. split_and!; [reflexivity|done|done|].
    intros i j Hi Hj. rewrite Hcell, decide_True by done. by apply Hv.
  - rewrite nested_no_iteration by lia.
    exists M. split_and!; [done|done|apply same_shape_refl|].
    intros i j Hi Hj. lia.
Qed.

(** X17: [set_matrix] on a list of lists [A] that has a row for every row
    of the matrix, each with an entry for every column, sets every entry
    [(i, j)] to [A[i][j]]; what [A] holds beyond the shape is not read.
    A matrix without rows or without columns is left as it is, whatever
    [A] is. *)
Theorem set_matrix_from_lists (zss : list (list Z)) M :
  wf M →
  ((∀ i, i < getRows M →
      ∃ row, zss !! i = Some row ∧ getCols M ≤ length row) →
   ∃ M',
     set_matrix_lists (pylists zss) M = (Ok tt, M')
     ∧ wf M' ∧ same_shape M' M
     ∧ ∀ i j, i < getRows M → j < getCols M →
         lists_entry zss i j = Some (cell M' i j))
  ∧ (getRows M = 0 ∨ getCols M = 0 →
     ∀ A, set_matrix_lists A M = (Ok tt, M)).
Proof.
  intros HM. split.
  - intros Hrows.
    destruct (set_matrix_lists_cells zss M HM Hrows)
      as (M' & Hrun & Hwf & Hsh & Hcell).
    by exists M'.
  - intros Hempty A. unfold set_matrix_lists.
    by rewrite nested_no_iteration by lia.
Qed.

Lemma set_matrix_from_lists_witness :
  wf doc_M
  ∧ ∃ M',
      set_matrix_lists (pylists [[1; 2; 3]; [4; 5; 6]; [7; 8; 9]]%Z) doc_M
      = (Ok tt, M')
      ∧ wf M' ∧ same_shape M' doc_M
      ∧ ∀ i j, i < getRows doc_M → j < getCols doc_M →
          lists_entry [[1; 2; 3]; [4; 5; 6]; [7; 8; 9]]%Z i j
          = Some (cell M' i j).
Proof.
  assert (wf doc_M) as HM by wf_ground.
  split; [exact HM|].
  apply (set_matrix_from_lists [[1; 2; 3]; [4; 5; 6]; [7; 8; 9]]%Z doc_M HM).
  intros [|[|i]] Hi; simpl in *; [eexists; split; [done|simpl; lia]..|lia].
Defined.

Lemma from_matrix_with_shape (zss : list (list Z)) (r c : nat) :
  (Z.of_nat r ≤ CInt.INT_MAX)%Z → (Z.of_nat c ≤ CInt.INT_MAX)%Z →
  (∀ i, i < r → ∃ row, zss !! i = Some row ∧ c ≤ length row) →
  ∃ R,
    (m ← CInt.of_py (Z.of_nat r);
     n ← CInt.of_py (Z.of_nat c);
     B ← IntegerMatrix_of_shape m n;
     match set_matrix_lists (pylists zss) B with
     | (Ok _, B) => Ok B
     | (Raise e, _) => Raise e
     | (Abort f, _) => Abort f
     end) = Ok R
    ∧ wf R ∧ getRows R = r ∧ getCols R = c
    ∧ ∀ i j, i < r → j < c → lists_entry zss i j = Some (cell R i j).
Proof.
  intros Hr Hc Hrows.
  destruct (set_matrix_lists_cells zss (new_ZZ_mat r c))
    as (R & Hrun & Hwf & [Hrs Hcs] & Hcell);
    [by apply wf_new_ZZ_mat|done|].
  exists R. simpl in Hrs, Hcs, Hcell. split_and!; try done.
  rewrite !of_py_in_range by (unfold CInt.INT_MIN; lia). simpl.
  rewrite of_shape_ok by done. simpl. by rewrite Hrun.
Qed.

(** X18: [from_matrix] on a list of lists infers the number of rows from
    the list and the number of columns from its first row, and builds the
    matrix of the entries [A[i][j]]; rows longer than the first are cut.
    With [nrows] and [ncols] given it takes that shape from the corner of
    [A].  On the empty list it raises [IndexError], as the first row is
    asked for. *)
Theorem from_matrix_of_lists (zss : list (list Z)) :
  (∀ row0,
     zss !! 0 = Some row0 →
     (Z.of_nat (length zss) ≤ CInt.INT_MAX)%Z →
     (Z.of_nat (length row0) ≤ CInt.INT_MAX)%Z →
     Forall (λ row, length row0 ≤ length row) zss →
     ∃ R,
       from_matrix_lists (pylists zss) None None = Ok R
       ∧ wf R ∧ getRows R = length zss ∧ getCols R = length row0
       ∧ ∀ i j, i < length zss → j < length row0 →
           lists_entry zss i j = Some (cell R i j))
  ∧ (∀ r c : nat,
       (Z.of_nat r ≤ CInt.INT_MAX)%Z → (Z.of_nat c ≤ CInt.INT_MAX)%Z →
       (∀ i, i < r → ∃ row, zss !! i = Some row ∧ c ≤ length row) →
       ∃ R,
         from_matrix_lists (pylists zss) (Some (Z.of_nat r))
           (Some (Z.of_nat c)) = Ok R
         ∧ wf R ∧ getRows R = r ∧ getCols R = c
         ∧ ∀ i j, i < r → j < c → lists_entry zss i j = Some (cell R i j))
  ∧ from_matrix_lists (pylists []) None None = Raise IndexError.
Proof.
  split_and!; [| |done].
  - intros row0 Hrow0 Hr Hc Hall.
    destruct (from_matrix_with_shape zss (length zss) (length row0))
      as (R & Hrun & HR); [done|done| |].
    { intros i Hi. destruct (lookup_lt_is_Some_2 zss i Hi) as [row Hrow].
      exists row. split; [done|].
      by apply (Forall_lookup_1 _ _ _ _ Hall Hrow). }
    exists R. split; [|done].
    unfold from_matrix_lists, list_getitem, pylists.
    rewrite list_lookup_fmap, Hrow0. simpl.
    rewrite !length_fmap. exact Hrun.
  - intros r c Hr Hc Hrows.
    destruct (from_matrix_with_shape zss r c Hr Hc Hrows) as (R & Hrun & HR).
    exists R. split; [|done]. exact Hrun.
Qed.

Lemma from_matrix_of_lists_witness :
  ∃ R,
    from_matrix_lists (pylists [[1; 2; 3]; [4; 5; 6]]%Z) None None = Ok R
    ∧ wf R ∧ getRows R = 2 ∧ getCols R = 3
    ∧ ∀ i j, i < 2 → j < 3 →
        lists_entry [[1; 2; 3]; [4; 5; 6]]%Z i j = Some (cell R i j).
Proof.
  apply (proj1 (from_matrix_of_lists [[1; 2; 3]; [4; 5; 6]]%Z) [1; 2; 3]%Z);
    [reflexivity|unfold CInt.INT_MAX; simpl; lia..|].
  repeat constructor.
Defined.

(** X19: [to_matrix] on a list of lists [A] that is large enough returns
    [A] as it was: the first loop fails on the tuple index before it
    writes, and the second one assigns each [A[i][j]] to itself, so that
    no entry of the matrix reaches [A]. *)
Theorem to_matrix_lists_unchanged self (A : list (list pyobj)) :
  wf self →
  (∀ i, i < getRows self →
     ∃ row, A !! i = Some row ∧ getCols self ≤ length row) →
  to_matrix_lists self A = Ok A.
Proof.
  intros Hself Hrows. unfold to_matrix_lists.
  destruct (decide (0 < getRows self ∧ 0 < getCols self)) as [[Hm Hn]|Hempty].
  - rewrite (nested_first_raises _ _ _ _ TypeError); [|done|done|].
    2:{ unfold lift.
        by rewrite getitem_entry
          by (done || unfold valid_index, nrows, ncols; lia). }
    destruct (for_each_total_on (λ B, B = A)
      (λ i,
        for_each (λ j B,
          lift (row ← list_getitem B i; list_getitem row j)
            (lists_setitem i j) B)
          (seq 0 (getCols self)))
      (λ _ B, B) (seq 0 (getRows self)) A) as [Hrun Hfold]; [|done|].
    { intros i B Hi%elem_of_seq ->.
      destruct (for_each_total_on (λ B, B = A)
        (λ j B,
          lift (row ← list_getitem B i; list_getitem row j)
            (lists_setitem i j) B)
        (λ _ B, B) (seq 0 (getCols self)) A) as [Hrun Hfold]; [|done|].
      { intros j B Hj%elem_of_seq ->. split; [|done].
        destruct (Hrows i) as (row & Hrow & Hlen); [lia|].
        destruct (lookup_lt_is_Some_2 row j) as [x Hx]; [lia|].
        assert ((row ← list_getitem A i; list_getitem row j) = Ok x) as ->.
        { unfold list_getitem. rewrite Hrow. simpl. by rewrite Hx. }
        unfold lift, lists_setitem. rewrite Hrow.
        rewrite decide_True by lia.
        by rewrite (list_insert_id row j x), (list_insert_id A i row). }
      by rewrite Hrun, Hfold. }
    by rewrite Hrun, Hfold.
  - by rewrite nested_no_iteration by lia.
Qed.

Lemma to_matrix_lists_unchanged_witness :
  wf doc_M
  ∧ (∀ i, i < getRows doc_M →
       ∃ row, [[PyNone; PyNone]; [PyNone; PyNone]] !! i = Some row
              ∧ getCols doc_M ≤ length row)
  ∧ to_matrix_lists doc_M [[PyNone; PyNone]; [PyNone; PyNone]]
    = Ok [[PyNone; PyNone]; [PyNone; PyNone]].
Proof.
  assert (wf doc_M) as HM by wf_ground.
  assert (∀ i, i < getRows doc_M →
            ∃ row, [[PyNone; PyNone]; [PyNone; PyNone]] !! i = Some row
                   ∧ getCols doc_M ≤ length row) as Hrows.
  { intros [|[|i]] Hi; simpl in *; [eexists; split; [done|simpl; lia]..|lia]. }
  refine (conj HM (conj Hrows _)).
  exact (to_matrix_lists_unchanged doc_M _ HM Hrows).
Defined.

(** ** The identity and the product *)

(** X20: the identity matrix is neutral for the product on both sides:
    [I * A] and [A * I] succeed and are equal to [A]. *)
Theorem mul_identity A :
  wf A →
  __mul__ (identity_mat (getRows A)) A = Ok A
  ∧ __mul__ A (identity_mat (getCols A)) = Ok A.
Proof.
  intros HA. pose proof HA as (_ & _ & Hr & Hc). split.
  - destruct (mul_defined (identity_mat (getRows A)) A)
      as (C & HC & HCwf & HCr & HCc & HCcell);
      [by apply wf_identity_mat|done|done|].
    rewrite HC. f_equal. apply ZZ_mat_eq; [done|done|by split|].
    simpl in *. intros i j Hi Hj. rewrite HCcell by lia.
    rewrite (sum_upto_ext _ _
      (λ t, (if decide (i = t) then 1 else 0) * cell A t j)%Z).
    + by rewrite sum_upto_unit_l by lia.
    + intros t Ht. by rewrite cell_identity_mat by lia.
  - destruct (mul_defined A (identity_mat (getCols A)))
      as (C & HC & HCwf & HCr & HCc & HCcell);
      [done|by apply wf_identity_mat|done|].
    rewrite HC. f_equal. apply ZZ_mat_eq; [done|done|by split|].
    simpl in *. intros i j Hi Hj. rewrite HCcell by lia.
    rewrite (sum_upto_ext _ _
      (λ t, cell A i t * (if decide (t = j) then 1 else 0))%Z).
    + by rewrite sum_upto_unit_r by lia.
    + intros t Ht. by rewrite cell_identity_mat by lia.
Qed.

Lemma mul_identity_witness :
  wf ex_A
  ∧ __mul__ (identity_mat (getRows ex_A)) ex_A = Ok ex_A
  ∧ __mul__ ex_A (identity_mat (getCols ex_A)) = Ok ex_A.
Proof.
  assert (wf ex_A) as HA by wf_ground.
  split; [exact HA|]. exact (mul_identity ex_A HA).
Defined.
